(** * Neurox: the menu-bar application's poll loop, menu rendering and presets

    A shallow embedding of [neurox/app.py] (class [NeuroxApp]).

    - Python integers are [Z]; strings are [string].
    - The application object is the record [App]; a method is a
      computation in the monad [M], which threads the application
      object, logs the calls made to the outside world, and either
      returns a value or raises a Python exception.  As in Python, the
      assignments made before an exception is raised are kept.
    - The platform client ([neurox.client.NeuroxClient]) is not part of
      [app.py]: what its calls deliver during one tick is a parameter,
      the record [Client].
    - [datetime.fromisoformat] and the order on [datetime] belong to
      Python's library: they are the interface [DateTime].  Timestamps
      are taken to be all naive or all aware, so that [<] is defined
      between any two of them.
    - Calls into [rumps] (notifications, menu items) and the reading of
      the settings are taken to succeed; they are logged or kept in the
      menu of the application object.  The menu is the list of the
      entries shown; under a title [rumps] keeps the entry added last.
    - The exceptions are those derived from [Exception], which is what
      the [except] clauses of [app.py] catch.
    - The handlers of the menu take what the user answers in the dialogs
      of [Windows] as [Response]s, and what the platform does with a
      submission or a kill as a [Platform]. *)

From Stdlib Require Import ZArith List String Ascii Bool Lia.
From Stdlib Require Import Sorting.Sorted Sorting.Permutation.
Import ListNotations.

Set Implicit Arguments.
Set Warnings "-register-all".

Module Neurox.

Local Open Scope string_scope.
Local Open Scope list_scope.
Local Open Scope Z_scope.

(** ** Exceptions and outcomes *)

(** The exception classes that [update] tells apart: [ValueError],
    the client's [AuthenticationError], and every other exception
    derived from [Exception] (for the last two with the text [str]
    gives, where the code reads it).  What lies outside [Exception]
    ([KeyboardInterrupt], [SystemExit], a cancellation) is not an error
    of a collaborator and is not modelled: no [except Exception] clause
    of [app.py] would catch it. *)
Inductive exn : Type :=
| ValueError (msg : string)
| AuthenticationError
| OtherException (msg : string).

Inductive Outcome (A : Type) : Type :=
| Returned (a : A)
| Raised (e : exn).

Arguments Returned {A} a.
Arguments Raised {A} e.

(** ** Data of the collaborators *)

(** Modelled from the spec: [StatusUpdate] and [NewJobUpdate] are declared in
    [neurox/client.py], which is absent.  Both carry a job id, a status
    (here the text that an f-string prints for it) and an optional reason. *)
Record UpdateInfo : Type := {
  job_id : string;
  status : string;
  reason : option string
}.

Inductive Update : Type :=
| StatusUpdate (u : UpdateInfo)
| NewJobUpdate (u : UpdateInfo).

(** Modelled from the spec: [JobDescription] comes from the platform client.
    Only the fields that [app.py] reads for the menu are kept:
    [id], [description], [status], [image], [ssh], [url] and
    [history.created_at] (an ISO-8601 string). *)
Record JobDescription : Type := {
  id : string;
  description : option string;
  job_status : string;
  image : string;
  ssh : bool;
  url : option string;
  created_at : string
}.

(** A preset is the dict [{'id': .., 'name': .., 'job_params': ..}]. *)
Record Preset : Type := {
  preset_id : string;
  name : string;
  job_params : string
}.

(** What the client's two calls deliver during one tick. *)
Record Client : Type := {
  client_update : Outcome (list Update);
  client_get_active_jobs : Outcome (list JobDescription)
}.

(** [datetime.fromisoformat], and on its results: whether a datetime is
    aware (carries an offset) or naive, and [<].  Python compares two
    naive or two aware datetimes, which is [dt_lt], and raises
    [TypeError] for a naive and an aware one. *)
Class DateTime : Type := {
  datetime : Type;
  fromisoformat : string -> Outcome datetime;
  dt_aware : datetime -> bool;
  dt_lt : datetime -> datetime -> bool
}.

(** The comparison of timestamps is a strict total order up to ties. *)
Class DateTimeOrder (DT : DateTime) : Prop := {
  dt_lt_irrefl : forall a, dt_lt a a = false;
  dt_lt_trans : forall a b c, dt_lt a b = true -> dt_lt b c = true -> dt_lt a c = true;
  dt_lt_ties : forall a b c, dt_lt a b = false -> dt_lt b c = false -> dt_lt a c = false
}.

(** ** The menu *)

(** A [rumps.MenuItem] with its title and submenu, or [rumps.separator].
    [JobItem] is the item built by [render_job_item]: its submenu (Id,
    Status, Image, CPU, ..., Kill) is a function of the job alone and is
    not expanded. *)
Inductive MenuItem : Type :=
| Item (title : string) (sub : list MenuItem)
| JobItem (title : string) (job : JobDescription)
| separator.

Definition item_title (m : MenuItem) : option string :=
  match m with
  | Item t _ => Some t
  | JobItem t _ => Some t
  | separator => None
  end.

(** ** The application object *)

Record App : Type := {
  iteration : Z;
  update_cycle_len : Z;
  menu : list MenuItem;
  presets : list Preset          (* settings['presets'] *)
}.

Definition UPDATE_DELAY : Z := 1.
Definition MAX_UPDATE_CYCLE_LEN : Z := 30.
Definition VERSION : string := "1.0".
Definition ABOUT : string := ("NeuroX (version " ++ VERSION ++ ") by Rebryk")%string.

Definition with_iteration (n : Z) (a : App) : App :=
  {| iteration := n; update_cycle_len := update_cycle_len a;
     menu := menu a; presets := presets a |}.

Definition with_update_cycle_len (n : Z) (a : App) : App :=
  {| iteration := iteration a; update_cycle_len := n;
     menu := menu a; presets := presets a |}.

Definition with_menu (m : list MenuItem) (a : App) : App :=
  {| iteration := iteration a; update_cycle_len := update_cycle_len a;
     menu := m; presets := presets a |}.

Definition with_presets (p : list Preset) (a : App) : App :=
  {| iteration := iteration a; update_cycle_len := update_cycle_len a;
     menu := menu a; presets := p |}.

(** [__init__]: [iteration = 0], [update_cycle_len = 1]. *)
Definition init (m : list MenuItem) (p : list Preset) : App :=
  {| iteration := 0; update_cycle_len := 1; menu := m; presets := p |}.

(** ** Calls to the outside world, as logged *)

Inductive Event : Type :=
| CallClientUpdate                              (* self.client.update() *)
| CallGetActiveJobs                             (* self.client.get_active_jobs() *)
| CallShowUpdates (updates : list Update)       (* self.show_updates(updates) *)
| CallRenderMenu                                (* self.render_menu() *)
| Notification (title subtitle message : string). (* rumps.notification(..) *)

(** ** The monad of methods *)

Definition M (A : Type) : Type := App -> Outcome A * App * list Event.

Definition ret {A} (x : A) : M A := fun a => (Returned x, a, []).

Definition bind {A B} (m : M A) (f : A -> M B) : M B :=
  fun a =>
    match m a with
    | (Returned x, a1, t1) =>
        match f x a1 with
        | (r, a2, t2) => (r, a2, t1 ++ t2)
        end
    | (Raised e, a1, t1) => (Raised e, a1, t1)
    end.

(** [try: body  except ...: handler e]. *)
Definition try_except {A} (body : M A) (handler : exn -> M A) : M A :=
  fun a =>
    match body a with
    | (Returned x, a1, t1) => (Returned x, a1, t1)
    | (Raised e, a1, t1) =>
        match handler e a1 with
        | (r, a2, t2) => (r, a2, t1 ++ t2)
        end
    end.

Definition get : M App := fun a => (Returned a, a, []).
Definition modify (f : App -> App) : M unit := fun a => (Returned tt, f a, []).
Definition emit (e : Event) : M unit := fun a => (Returned tt, a, [e]).
Definition lift {A} (r : Outcome A) : M A := fun a => (r, a, []).

Declare Scope monad_scope.
Delimit Scope monad_scope with monad.
Notation "x <- c1 ;; c2" := (bind c1 (fun x => c2))
  (at level 61, c1 at next level, right associativity) : monad_scope.
Notation "c1 ;; c2" := (bind c1 (fun _ => c2))
  (at level 61, right associativity) : monad_scope.
Local Open Scope monad_scope.

Fixpoint for_each {A} (f : A -> M unit) (l : list A) : M unit :=
  match l with
  | [] => ret tt
  | x :: l' => f x ;; for_each f l'
  end.

Definition outcome {A} (r : Outcome A * App * list Event) : Outcome A := fst (fst r).
Definition state_of {A} (r : Outcome A * App * list Event) : App := snd (fst r).
Definition trace_of {A} (r : Outcome A * App * list Event) : list Event := snd r.

(** ** Methods of [NeuroxApp] *)

Definition notification (title subtitle message : string) : M unit :=
  emit (Notification title subtitle message).

(** [set_active_mode]: only the cycle length is assigned. *)
Definition set_active_mode : M unit :=
  modify (with_update_cycle_len 1).

(** [f' ({update.reason})' if update.reason else '']: [None] and the
    empty string are both false. *)
Definition reason_text (r : option string) : string :=
  match r with
  | Some (String c s) => (" (" ++ String c s ++ ")")%string
  | _ => EmptyString
  end.

Definition show_update (u : Update) : M unit :=
  match u with
  | StatusUpdate i =>
      notification "Job status has changed" (job_id i)
        ("New status: " ++ status i ++ reason_text (reason i))%string
  | NewJobUpdate i =>
      notification "New job is created" (job_id i)
        ("Status: " ++ status i ++ reason_text (reason i))%string
  end.

Definition show_updates (updates : list Update) : M unit :=
  emit (CallShowUpdates updates) ;;
  for_each show_update updates.

(** The menu is kept as the list of the entries shown, in the order they
    were added.  [self.menu.add(item)] appends.  [rumps] keys the
    entries by title, and keeps under a title the entry added last:
    that is the one [self.menu.get(title)] gives. *)
Definition menu_add (m : MenuItem) : M unit :=
  modify (fun a => with_menu (menu a ++ [m]) a).

Definition has_title (t : string) (m : MenuItem) : bool :=
  match item_title m with
  | Some t' => String.eqb t' t
  | None => false
  end.

Definition menu_get (t : string) (l : list MenuItem) : option MenuItem :=
  find (has_title t) (rev l).

(** [job.description if job.description else job.id] *)
Definition job_name (job : JobDescription) : string :=
  match description job with
  | Some (String c s) => String c s
  | _ => id job
  end.

Definition render_job_item (job : JobDescription) : MenuItem :=
  JobItem (job_name job) job.

Definition render_preset_item (preset : Preset) : MenuItem :=
  Item (name preset)
    [Item "Submit..." []; Item "Rename..." []; Item "Change job..." []; Item "Remove" []].

Definition render_presets_item : M MenuItem :=
  a <- get ;;
  let ps := presets a in
  ret (Item "Presets"
         (map render_preset_item ps
          ++ (if (Z.of_nat (List.length ps) =? 0) then [Item "No presets" []] else [])
          ++ [separator; Item "Create preset..." []])).

Definition render_settings_item : MenuItem :=
  Item "Settings"
    [Item "Username..." []; Item "Token..." []; Item "API URL..." []; Item "RSA key path..." []].

(** *** [sorted(jobs, key=lambda it: datetime.fromisoformat(it.history.created_at))]

    [sorted] first computes the key of every element, in order (the first
    failure is raised), then sorts stably, comparing keys with [<] only.
    The comparisons of a sort link all the elements, so a list that
    holds a naive and an aware key meets a comparison that raises
    [TypeError], and a list of keys of one kind meets none. *)
Section Rendering.
Context {DT : DateTime}.

Fixpoint keyed (jobs : list JobDescription) : Outcome (list (datetime * JobDescription)) :=
  match jobs with
  | [] => Returned []
  | j :: rest =>
      match fromisoformat (created_at j) with
      | Raised e => Raised e
      | Returned k =>
          match keyed rest with
          | Raised e => Raised e
          | Returned ks => Returned ((k, j) :: ks)
          end
      end
  end.

Fixpoint insert (x : datetime * JobDescription) (l : list (datetime * JobDescription))
  : list (datetime * JobDescription) :=
  match l with
  | [] => [x]
  | y :: l' => if dt_lt (fst y) (fst x) then y :: insert x l' else x :: y :: l'
  end.

Definition sort_keyed (l : list (datetime * JobDescription)) : list (datetime * JobDescription) :=
  fold_right insert [] l.

(** All the keys are naive, or all are aware. *)
Definition comparable (ks : list (datetime * JobDescription)) : bool :=
  match ks with
  | [] => true
  | k :: rest => forallb (fun x => Bool.eqb (dt_aware (fst x)) (dt_aware (fst k))) rest
  end.

(** [TypeError("can't compare offset-naive and offset-aware datetimes")] *)
Definition type_error : exn :=
  OtherException "can't compare offset-naive and offset-aware datetimes".

Definition sorted_by_created (jobs : list JobDescription) : Outcome (list JobDescription) :=
  match keyed jobs with
  | Raised e => Raised e
  | Returned ks =>
      if comparable ks then Returned (map snd (sort_keyed ks)) else Raised type_error
  end.

(** [render_menu] *)
Definition render_menu (c : Client) : M unit :=
  emit CallRenderMenu ;;
  a <- get ;;
  let quit_button := menu_get "Quit" (menu a) in
  modify (with_menu []) ;;
  menu_add (Item ABOUT []) ;;
  menu_add render_settings_item ;;
  menu_add separator ;;
  (* Active jobs sorted by created time *)
  active <- (emit CallGetActiveJobs ;; lift (client_get_active_jobs c)) ;;
  jobs <- lift (sorted_by_created active) ;;
  match jobs with
  | _ :: _ => for_each (fun job => menu_add (render_job_item job)) jobs
  | [] => menu_add (Item "No active jobs" [])
  end ;;
  menu_add separator ;;
  menu_add (Item "Create job..." []) ;;
  presets_item <- render_presets_item ;;
  menu_add presets_item ;;
  menu_add separator ;;
  (* rumps takes [None] for a separator *)
  menu_add (match quit_button with Some q => q | None => separator end).

(** [update], the handler of the timer: one call is one tick. *)
Definition update (c : Client) : M unit :=
  modify (fun a => with_iteration (iteration a + 1) a) ;;
  a <- get ;;
  if iteration a <? update_cycle_len a then ret tt
  else
    modify (with_iteration 0) ;;
    modify (fun a => with_update_cycle_len
                       (Z.min (2 * update_cycle_len a) MAX_UPDATE_CYCLE_LEN) a) ;;
    try_except
      (updates <- (emit CallClientUpdate ;; lift (client_update c)) ;;
       show_updates updates)
      (fun e =>
         match e with
         | ValueError msg => notification "Failed to get updates" EmptyString msg
         | AuthenticationError =>
             notification "Failed to get updates" EmptyString "You may be using the wrong token"
         | OtherException _ => ret tt   (* Ignore Internet connection problems *)
         end) ;;
    render_menu c.
End Rendering.

(** *** [update_preset] *)

(** The [for it in settings['presets']] loop, with its two variables. *)
Fixpoint update_preset_loop (preset : Preset) (remove : bool) (its : list Preset)
    (new_presets : list Preset) (is_found : bool) : list Preset * bool :=
  match its with
  | [] => (new_presets, is_found)
  | it :: rest =>
      if String.eqb (preset_id it) (preset_id preset)
      then update_preset_loop preset remove rest
             (if negb remove then new_presets ++ [preset] else new_presets) true
      else update_preset_loop preset remove rest (new_presets ++ [it]) is_found
  end.

Definition update_presets (preset : Preset) (remove : bool) (stored : list Preset)
    : list Preset :=
  let '(new_presets, is_found) := update_preset_loop preset remove stored [] false in
  if negb is_found && negb remove then new_presets ++ [preset] else new_presets.

Definition update_preset (preset : Preset) (remove : bool) : M unit :=
  a <- get ;;
  modify (with_presets (update_presets preset remove (presets a))).

(** ** Runs: ticks of the timer interleaved with resets of the backoff *)

(** [Tick c] is one call of [update] during which the client behaves as
    [c]; [SetActiveMode] is a call of [set_active_mode] (made by
    [create_job], [kill_job] and [submit_preset]). *)
Inductive Action : Type :=
| Tick (c : Client)
| SetActiveMode.

Definition is_tick (act : Action) : bool :=
  match act with Tick _ => true | SetActiveMode => false end.

(** What happened at one action: the application object it started
    from and the calls it made. *)
Record Entry : Type := {
  action : Action;
  before : App;
  events : list Event
}.

Definition is_client_update (e : Event) : bool :=
  match e with CallClientUpdate => true | _ => false end.
Definition is_render_menu (e : Event) : bool :=
  match e with CallRenderMenu => true | _ => false end.
Definition is_show_updates (e : Event) : bool :=
  match e with CallShowUpdates _ => true | _ => false end.
Definition is_notification (e : Event) : bool :=
  match e with Notification _ _ _ => true | _ => false end.

(** A tick executes a poll when it calls [self.client.update()]. *)
Definition polled (t : list Event) : bool := existsb is_client_update t.

Definition entry_polled (e : Entry) : bool := is_tick (action e) && polled (events e).

Section Runs.
Context {DT : DateTime}.

Definition perform (act : Action) : M unit :=
  match act with
  | Tick c => update c
  | SetActiveMode => set_active_mode
  end.

(** The timer fires again whatever the previous tick did, so a run
    goes on from the state a tick leaves, raised or not. *)
Fixpoint run (acts : list Action) (a : App) : App :=
  match acts with
  | [] => a
  | act :: rest => run rest (state_of (perform act a))
  end.

Fixpoint history (acts : list Action) (a : App) : list Entry :=
  match acts with
  | [] => []
  | act :: rest =>
      {| action := act; before := a; events := trace_of (perform act a) |}
      :: history rest (state_of (perform act a))
  end.
End Runs.

Definition ticks (cs : list Client) : list Action := map Tick cs.

(** Number of polls executed in a history. *)
Definition polls (h : list Entry) : nat := List.length (filter entry_polled h).

(** Cycle lengths in effect at the executed polls, in order. *)
Definition cycles_at_polls (h : list Entry) : list Z :=
  map (fun e => update_cycle_len (before e)) (filter entry_polled h).

(** The entries that follow the last executed poll (all of them when no
    poll was executed), latest first. *)
Fixpoint until_poll (rev_h : list Entry) : list Entry :=
  match rev_h with
  | [] => []
  | e :: older => if entry_polled e then [] else e :: until_poll older
  end.

(** Number of ticks elapsed since the last executed poll, or since start. *)
Definition ticks_since_poll (h : list Entry) : Z :=
  Z.of_nat (List.length (filter (fun e => is_tick (action e)) (until_poll (rev h)))).

(** ** What the menu and the log show *)

(** [j1] was created no later than [j2], as far as their timestamps parse. *)
Definition created_le {DT : DateTime} (j1 j2 : JobDescription) : Prop :=
  forall k1 k2,
    fromisoformat (created_at j1) = Returned k1 ->
    fromisoformat (created_at j2) = Returned k2 ->
    dt_lt k2 k1 = false.

(** The timestamps of the jobs are all naive or all aware, as far as
    they parse. *)
Definition same_awareness {DT : DateTime} (jobs : list JobDescription) : Prop :=
  forall j1 j2 k1 k2,
    In j1 jobs -> In j2 jobs ->
    fromisoformat (created_at j1) = Returned k1 ->
    fromisoformat (created_at j2) = Returned k2 ->
    dt_aware k1 = dt_aware k2.

(** An entry of the menu shows a job: it is the item built for that
    job, under the description of the job, or under its id when the
    description is missing or empty. *)
Definition entry_shows (m : MenuItem) (j : JobDescription) : Prop :=
  exists t,
    m = JobItem t j
    /\ match description j with
       | Some d => if String.eqb d EmptyString then t = id j else t = d
       | None => t = id j
       end.

(** The order of the keys that [sorted] compares. *)
Definition key_le {DT : DateTime} (x y : datetime * JobDescription) : Prop :=
  dt_lt (fst y) (fst x) = false.

Definition auth_notification : Event :=
  Notification "Failed to get updates" EmptyString "You may be using the wrong token".

Definition notifications (t : list Event) : list Event := filter is_notification t.
Definition render_calls (t : list Event) : nat := List.length (filter is_render_menu t).
Definition show_updates_calls (t : list Event) : nat := List.length (filter is_show_updates t).
Definition poll_calls (t : list Event) : nat := List.length (filter is_client_update t).

(** ** Presets: the outcome of [update_preset] in the words of its description *)

Definition same_id (p it : Preset) : bool := String.eqb (preset_id it) (preset_id p).

(** Every entry with [p]'s id replaced by [p] where it stands; [p]
    appended when there is none. *)
Definition replaced_or_appended (p : Preset) (stored : list Preset) : list Preset :=
  map (fun it => if same_id p it then p else it) stored
  ++ (if existsb (same_id p) stored then [] else [p]).

(** Every entry with [p]'s id removed. *)
Definition removed (p : Preset) (stored : list Preset) : list Preset :=
  filter (fun it => negb (same_id p it)) stored.

(** ** The menu that [render_menu] builds, part by part *)

Definition menu_head : list MenuItem :=
  [Item ABOUT []; render_settings_item; separator].

Definition job_section (jobs : list JobDescription) : list MenuItem :=
  match jobs with
  | _ :: _ => map render_job_item jobs
  | [] => [Item "No active jobs" []]
  end.

Definition presets_item (ps : list Preset) : MenuItem :=
  Item "Presets"
    (map render_preset_item ps
     ++ (if Z.of_nat (List.length ps) =? 0 then [Item "No presets" []] else [])
     ++ [separator; Item "Create preset..." []]).

Definition menu_tail (a : App) : list MenuItem :=
  [separator; Item "Create job..." []; presets_item (presets a); separator;
   match menu_get "Quit" (menu a) with Some q => q | None => separator end].

(** The notifications that [show_updates] posts. *)
Definition update_notification (u : Update) : Event :=
  match u with
  | StatusUpdate i =>
      Notification "Job status has changed" (job_id i)
        ("New status: " ++ status i ++ reason_text (reason i))%string
  | NewJobUpdate i =>
      Notification "New job is created" (job_id i)
        ("Status: " ++ status i ++ reason_text (reason i))%string
  end.

(** The calls made by the [try] statement of [update]. *)
Definition poll_events (c : Client) : list Event :=
  CallClientUpdate ::
  match client_update c with
  | Returned updates => CallShowUpdates updates :: map update_notification updates
  | Raised (ValueError msg) => [Notification "Failed to get updates" EmptyString msg]
  | Raised AuthenticationError =>
      [Notification "Failed to get updates" EmptyString "You may be using the wrong token"]
  | Raised (OtherException _) => []
  end.

(** The poll state that a polling tick leaves. *)
Definition advanced (a : App) : App :=
  {| iteration := 0;
     update_cycle_len := Z.min (2 * update_cycle_len a) MAX_UPDATE_CYCLE_LEN;
     menu := menu a; presets := presets a |}.

(** The poll state after a tick and whether the tick polled, read off
    [update]: the schedule of polls does not depend on what the client
    delivers. *)
Definition tick_poll_state (s : Z * Z) : Z * Z * bool :=
  let '(i, n) := s in
  if i + 1 <? n then (i + 1, n, false)
  else (0, Z.min (2 * n) MAX_UPDATE_CYCLE_LEN, true).

(** For [n] ticks in a row: the cycle length in effect at each tick and
    whether the tick polls. *)
Fixpoint schedule (n : nat) (s : Z * Z) : list (Z * bool) :=
  match n with
  | O => []
  | S n' =>
      let '(s', p) := tick_poll_state s in
      (snd s, p) :: schedule n' s'
  end.

Definition poll_state (a : App) : Z * Z := (iteration a, update_cycle_len a).

Definition last_action (acts : list Action) : option Action :=
  match rev acts with
  | [] => None
  | act :: _ => Some act
  end.

(** The invariant of the poll state that ticks and resets both keep. *)
Definition poll_inv (a : App) : Prop :=
  1 <= update_cycle_len a <= MAX_UPDATE_CYCLE_LEN
  /\ 0 <= iteration a < MAX_UPDATE_CYCLE_LEN.

(** The stronger one, kept by ticks but not by a reset. *)
Definition rest_inv (a : App) : Prop :=
  1 <= update_cycle_len a <= MAX_UPDATE_CYCLE_LEN
  /\ 0 <= iteration a < update_cycle_len a.

(** ** A model of [datetime] for dates without a time: [YYYY-MM-DD] *)

Definition digit (c : ascii) : option Z :=
  let n := Z.of_N (N_of_ascii c) in
  if (48 <=? n) && (n <=? 57) then Some (n - 48) else None.

Definition is_leap (y : Z) : bool :=
  ((y mod 4 =? 0) && negb (y mod 100 =? 0)) || (y mod 400 =? 0).

Definition days_in_month (y m : Z) : Z :=
  if m =? 2 then (if is_leap y then 29 else 28)
  else if (m =? 4) || (m =? 6) || (m =? 9) || (m =? 11) then 30 else 31.

(** The digits of [YYYY-MM-DD], when the string has that shape. *)
Definition parse_date (s : string) : option (Z * Z * Z) :=
  match list_ascii_of_string s with
  | [y1; y2; y3; y4; s1; m1; m2; s2; d1; d2] =>
      match digit y1, digit y2, digit y3, digit y4, digit m1, digit m2, digit d1, digit d2 with
      | Some a, Some b, Some c, Some d, Some e, Some f, Some g, Some h =>
          if Ascii.eqb s1 "-"%char && Ascii.eqb s2 "-"%char
          then Some (1000 * a + 100 * b + 10 * c + d, 10 * e + f, 10 * g + h)
          else None
      | _, _, _, _, _, _, _, _ => None
      end
  | _ => None
  end.

(** The checks of the constructor of [datetime], in its order. *)
Definition check_date (d : Z * Z * Z) : Outcome (Z * Z * Z) :=
  let '(y, m, dd) := d in
  if y <? 1 then Raised (ValueError "year 0 is out of range")
  else if (m <? 1) || (12 <? m) then Raised (ValueError "month must be in 1..12")
  else if (dd <? 1) || (days_in_month y m <? dd)
       then Raised (ValueError "day is out of range for month")
       else Returned d.

Definition date_key (d : Z * Z * Z) : Z :=
  let '(y, m, dd) := d in 10000 * y + 100 * m + dd.

(** Strings of another shape are refused here, also those with a time
    or an offset that Python reads. *)
#[export] Instance IsoDate : DateTime := {|
  datetime := Z * Z * Z;
  fromisoformat := fun s =>
    match parse_date s with
    | Some d => check_date d
    | None => Raised (ValueError ("Invalid isoformat string: '" ++ s ++ "'")%string)
    end;
  dt_aware := fun _ => false;      (* a date carries no offset *)
  dt_lt := fun a b => date_key a <? date_key b
|}.

(** ** Examples of runs *)

Definition job_at (i : string) (created : string) : JobDescription :=
  {| id := i; description := None; job_status := "running"; image := "ubuntu";
     ssh := false; url := None; created_at := created |}.

Definition quiet : Client :=
  {| client_update := Returned []; client_get_active_jobs := Returned [] |}.

Definition start : App := init [Item "Quit" []] [].

(** The token is refused. *)
Definition refused : Client :=
  {| client_update := Raised AuthenticationError; client_get_active_jobs := Returned [] |}.

(** The poll succeeds and the listing of the active jobs fails. *)
Definition listing_fails : Client :=
  {| client_update := Returned []; client_get_active_jobs := Raised AuthenticationError |}.

(** The poll succeeds and a job carries a timestamp that is no ISO date. *)
Definition bad_timestamp : Client :=
  {| client_update := Returned [];
     client_get_active_jobs := Returned [job_at "a" "yesterday"] |}.

Definition three_jobs : list JobDescription :=
  [job_at "b" "2019-03-01"; job_at "a" "2019-02-01"; job_at "c" "2019-02-28"].

Definition busy : Client :=
  {| client_update := Returned []; client_get_active_jobs := Returned three_jobs |}.

(** Two ticks, then a job is submitted or killed. *)
Definition reset_after_two_ticks : list Action := [Tick quiet; Tick quiet; SetActiveMode].

(** ** The handlers of the menu: dialogs, presets and jobs *)

(** What a dialog of [Windows] returns: whether the default button was
    pressed, and the text typed. *)
Record Response : Type := {
  clicked : bool;
  text : string
}.

(** What the platform does when a handler asks it to submit or to kill. *)
Record Platform : Type := {
  client_submit_raw : string -> Outcome unit;   (* self.client.submit_raw(params) *)
  client_job_kill : string -> Outcome unit      (* self.client.job_kill(job.id) *)
}.

(** [del self.menu[key]]: the entry kept under the title, the one added
    last, goes from the menu; there is nothing to delete, and
    [KeyError] is raised, when no entry has the title.  The list keeps
    no record of the keys apart from the entries, so it follows [rumps]
    as long as the titles of the menu are distinct. *)
Fixpoint remove_first (key : string) (l : list MenuItem) : option (list MenuItem) :=
  match l with
  | [] => None
  | m :: l' =>
      if has_title key m then Some l'
      else match remove_first key l' with
           | Some l'' => Some (m :: l'')
           | None => None
           end
  end.

Definition menu_remove (key : string) (l : list MenuItem) : option (list MenuItem) :=
  match remove_first key (rev l) with
  | Some l' => Some (rev l')
  | None => None
  end.

(** The titles of the entries of a menu; no two entries share one. *)
Definition titles (l : list MenuItem) : list string :=
  flat_map (fun m => match item_title m with Some t => [t] | None => [] end) l.

Definition distinct_titles (l : list MenuItem) : Prop := NoDup (titles l).

Definition renamed (new_name : string) (preset : Preset) : Preset :=
  {| preset_id := preset_id preset; name := new_name; job_params := job_params preset |}.

Definition reparametrized (new_params : string) (preset : Preset) : Preset :=
  {| preset_id := preset_id preset; name := name preset; job_params := new_params |}.

Section Handlers.
Context {DT : DateTime}.

(** [str(KeyError(key))] and [str(e)] for the client's
    [AuthenticationError]: texts that Python and the client make. *)
Variable key_error_text : string -> string.
Variable auth_error_text : string.

(** [str(e)] *)
Definition str (e : exn) : string :=
  match e with
  | ValueError msg => msg
  | AuthenticationError => auth_error_text
  | OtherException msg => msg
  end.

Definition del_menu (key : string) : M unit :=
  a <- get ;;
  match menu_remove key (menu a) with
  | Some l => modify (with_menu l)
  | None => lift (Raised (OtherException (key_error_text key)))
  end.

(** [kill_job] *)
Definition kill_job (response : Response) (p : Platform) (job : JobDescription) : M unit :=
  if clicked response then
    try_except
      (lift (client_job_kill p (id job)) ;;
       del_menu (id job) ;;
       set_active_mode)
      (fun e => notification "Failed to kill the job" EmptyString (str e))
  else ret tt.

(** [submit_preset] *)
Definition submit_preset (response : Response) (p : Platform) (preset : Preset) : M unit :=
  if clicked response then
    try_except
      (let params := ("-d '" ++ text response ++ "' " ++ job_params preset)%string in
       lift (client_submit_raw p params) ;;
       set_active_mode)
      (fun e => notification "Failed to create new job" EmptyString (str e))
  else ret tt.

(** [rename_preset] *)
Definition rename_preset (response : Response) (c : Client) (preset : Preset) : M unit :=
  if clicked response then
    let preset := renamed (text response) preset in
    update_preset preset false ;;
    render_menu c
  else ret tt.

(** [change_preset] *)
Definition change_preset (response : Response) (c : Client) (preset : Preset) : M unit :=
  if clicked response then
    let preset := reparametrized (text response) preset in
    update_preset preset false ;;
    render_menu c
  else ret tt.

(** [remove_preset] *)
Definition remove_preset (response : Response) (c : Client) (preset : Preset) : M unit :=
  if clicked response then
    update_preset preset true ;;
    render_menu c
  else ret tt.

(** [create_preset]: the [while True] loop of the two dialogs, run on
    the answers the user gives, in order.  The result tells whether the
    handler has returned; it is [false] when the answers end with a
    dialog still open. *)
Fixpoint create_preset_loop (c : Client) (preset : Preset) (answers : list Response)
  : M bool :=
  match answers with
  | [] => ret false
  | name_response :: rest =>
      if negb (clicked name_response) then ret true
      else
        let preset := renamed (text name_response) preset in
        match rest with
        | [] => ret false
        | params_response :: rest' =>
            if clicked params_response then
              let preset := reparametrized (text params_response) preset in
              update_preset preset false ;;
              render_menu c ;;
              ret true
            else create_preset_loop c preset rest'
        end
  end.

(** [new_id] is [str(uuid4())]. *)
Definition create_preset (c : Client) (new_id : string) (answers : list Response) : M bool :=
  create_preset_loop c
    {| preset_id := new_id; name := EmptyString; job_params := EmptyString |} answers.
End Handlers.

Definition answer (ok : bool) (t : string) : Response := {| clicked := ok; text := t |}.

(** The user types a name, presses Next, types parameters and presses
    Prev, once for every pair. *)
Definition back_and_forth (retries : list (string * string)) : list Response :=
  flat_map (fun r => [answer true (fst r); answer false (snd r)]) retries.

Definition ids (l : list Preset) : list string := map preset_id l.

(** The top-level entry of a menu under a title, if any. *)
Definition titled (t : string) (l : list MenuItem) : Prop := menu_get t l <> None.

(** No active job is shown under the title [t]. *)
Definition no_job_named (t : string) (jobs : list JobDescription) : Prop :=
  Forall (fun j => job_name j <> t) jobs.

(** ** More examples *)

(** The server answers with something the client cannot read. *)
Definition malformed : Client :=
  {| client_update := Raised (ValueError "unexpected response");
     client_get_active_jobs := Returned [] |}.

(** The network is down. *)
Definition offline : Client :=
  {| client_update := Raised (OtherException "connection refused");
     client_get_active_jobs := Returned [] |}.

Definition started : Update :=
  StatusUpdate {| job_id := "a"; status := "running"; reason := Some EmptyString |}.

Definition submitted : Update :=
  NewJobUpdate {| job_id := "b"; status := "pending"; reason := Some "queued" |}.

Definition two_updates : Client :=
  {| client_update := Returned [started; submitted]; client_get_active_jobs := Returned [] |}.

Definition gpu_preset : Preset :=
  {| preset_id := "p1"; name := "gpu"; job_params := "-g 1 image" |}.

Definition cpu_preset : Preset :=
  {| preset_id := "p2"; name := "cpu"; job_params := "-c 2 image" |}.

Definition tpu_preset : Preset :=
  {| preset_id := "p3"; name := "tpu"; job_params := "-t 1" |}.

Definition with_presets_stored : App := init [Item "Quit" []] [gpu_preset; cpu_preset].

(** A platform that accepts everything, and one that refuses. *)
Definition accepting : Platform :=
  {| client_submit_raw := fun _ => Returned tt; client_job_kill := fun _ => Returned tt |}.

Definition refusing : Platform :=
  {| client_submit_raw := fun _ => Raised AuthenticationError;
     client_job_kill := fun _ => Raised (OtherException "no such job") |}.

Definition quoted (key : string) : string := ("'" ++ key ++ "'")%string.

(** A job shown under its description, and a client that lists it
    beside a job without description. *)
Definition training : JobDescription :=
  {| id := "job-1"; description := Some "training"; job_status := "running";
     image := "ubuntu"; ssh := false; url := None; created_at := "2019-02-01" |}.

Definition lists_two : Client :=
  {| client_update := Returned [];
     client_get_active_jobs := Returned [training; job_at "job-2" "2019-03-01"] |}.

(** ** Properties *)

Section Properties.
Context {DT : DateTime}.

(** *** The monad's loops *)

Lemma for_each_menu_add (f : JobDescription -> MenuItem) jobs a m :
  for_each (fun j => menu_add (f j)) jobs (with_menu m a)
  = (Returned tt, with_menu (m ++ map f jobs) a, []).
Proof.
  revert m. induction jobs as [|j jobs IH]; intros m.
  - cbn. now rewrite app_nil_r.
  - specialize (IH (m ++ [f j])).
    rewrite <- app_assoc in IH.
    unfold menu_add, modify, with_menu, bind in *. cbn in *.
    now rewrite IH.
Qed.

Lemma for_each_show_update us a :
  for_each show_update us a = (Returned tt, a, map update_notification us).
Proof.
  revert a. induction us as [|u us IH]; intros a; cbn; [reflexivity|].
  unfold bind. destruct u; cbn; now rewrite IH.
Qed.

(** *** [render_menu], in one equation *)

Lemma render_menu_eq c a :
  render_menu c a =
  match client_get_active_jobs c with
  | Raised e => (Raised e, with_menu menu_head a, [CallRenderMenu; CallGetActiveJobs])
  | Returned active =>
      match sorted_by_created active with
      | Raised e => (Raised e, with_menu menu_head a, [CallRenderMenu; CallGetActiveJobs])
      | Returned jobs =>
          (Returned tt, with_menu (menu_head ++ job_section jobs ++ menu_tail a) a,
           [CallRenderMenu; CallGetActiveJobs])
      end
  end.
Proof.
  unfold render_menu, bind, emit, get, modify, menu_add, lift, render_presets_item, ret.
  cbn. destruct (client_get_active_jobs c) as [active|e]; [|reflexivity].
  destruct (sorted_by_created active) as [jobs|e]; [|reflexivity].
  destruct jobs as [|j jobs]; [reflexivity|].
  pose proof (for_each_menu_add render_job_item jobs a
                (menu_head ++ [render_job_item j])) as H.
  unfold menu_add, modify, with_menu in *. cbn in *. rewrite H. cbn.
  unfold menu_tail, presets_item. now rewrite <- !app_assoc.
Qed.

(** *** [update], in one equation *)

Lemma try_poll_eq c a :
  try_except
    (bind (bind (emit CallClientUpdate) (fun _ => lift (client_update c)))
          (fun updates => show_updates updates))
    (fun e =>
       match e with
       | ValueError msg => notification "Failed to get updates" EmptyString msg
       | AuthenticationError =>
           notification "Failed to get updates" EmptyString "You may be using the wrong token"
       | OtherException _ => ret tt
       end) a
  = (Returned tt, a, poll_events c).
Proof.
  unfold try_except, bind, emit, lift, show_updates, poll_events. cbn.
  destruct (client_update c) as [us|[msg| |msg]]; cbn; try reflexivity.
  now rewrite for_each_show_update.
Qed.

Lemma bind_modify {B} f (k : unit -> M B) a : bind (modify f) k a = k tt (f a).
Proof. unfold bind, modify. now destruct (k tt (f a)) as [[r a2] t2]. Qed.

Lemma bind_get {B} (k : App -> M B) a : bind get k a = k a a.
Proof. unfold bind, get. now destruct (k a a) as [[r a2] t2]. Qed.

Lemma update_eq c a :
  update c a =
  if iteration a + 1 <? update_cycle_len a
  then (Returned tt, with_iteration (iteration a + 1) a, [])
  else
    let r := render_menu c (advanced a) in
    (outcome r, state_of r, poll_events c ++ trace_of r).
Proof.
  unfold update. rewrite bind_modify, bind_get.
  cbn [iteration update_cycle_len with_iteration].
  destruct (iteration a + 1 <? update_cycle_len a); [reflexivity|].
  rewrite !bind_modify. unfold bind at 1. rewrite try_poll_eq.
  change (with_update_cycle_len _ _) with (advanced a).
  cbn zeta. now destruct (render_menu c (advanced a)) as [[r a'] t].
Qed.

Lemma poll_events_calls c : poll_calls (poll_events c) = 1%nat.
Proof.
  unfold poll_calls, poll_events. cbn.
  destruct (client_update c) as [us|[msg| |msg]]; cbn; try reflexivity.
  f_equal. induction us as [|[i|i] us IH]; cbn; auto.
Qed.

Lemma render_menu_trace c a : trace_of (render_menu c a) = [CallRenderMenu; CallGetActiveJobs].
Proof.
  rewrite render_menu_eq.
  destruct (client_get_active_jobs c) as [active|e]; [|reflexivity].
  now destruct (sorted_by_created active).
Qed.

Lemma render_menu_poll_state c a :
  iteration (state_of (render_menu c a)) = iteration a
  /\ update_cycle_len (state_of (render_menu c a)) = update_cycle_len a
  /\ presets (state_of (render_menu c a)) = presets a.
Proof.
  rewrite render_menu_eq.
  destruct (client_get_active_jobs c) as [active|e]; [|now cbn].
  now destruct (sorted_by_created active).
Qed.

Lemma update_skip c a :
  iteration a + 1 < update_cycle_len a ->
  update c a = (Returned tt, with_iteration (iteration a + 1) a, []).
Proof.
  intros H. rewrite update_eq.
  now destruct (Z.ltb_spec (iteration a + 1) (update_cycle_len a)); [|lia].
Qed.

Lemma update_poll c a :
  update_cycle_len a <= iteration a + 1 ->
  update c a =
  (outcome (render_menu c (advanced a)), state_of (render_menu c (advanced a)),
   poll_events c ++ [CallRenderMenu; CallGetActiveJobs]).
Proof.
  intros H. rewrite update_eq.
  destruct (Z.ltb_spec (iteration a + 1) (update_cycle_len a)); [lia|].
  cbn zeta. now rewrite render_menu_trace.
Qed.

Lemma update_poll_state c a :
  update_cycle_len a <= iteration a + 1 ->
  state_of (update c a) = state_of (render_menu c (advanced a)).
Proof. intros H. now rewrite update_poll. Qed.

Lemma update_poll_trace c a :
  update_cycle_len a <= iteration a + 1 ->
  trace_of (update c a) = poll_events c ++ [CallRenderMenu; CallGetActiveJobs].
Proof. intros H. now rewrite update_poll. Qed.

Lemma update_poll_outcome c a :
  update_cycle_len a <= iteration a + 1 ->
  outcome (update c a) = outcome (render_menu c (advanced a)).
Proof. intros H. now rewrite update_poll. Qed.

Lemma poll_calls_app t1 t2 : poll_calls (t1 ++ t2) = (poll_calls t1 + poll_calls t2)%nat.
Proof. unfold poll_calls. now rewrite filter_app, length_app. Qed.

Lemma polled_poll_events c t : polled (poll_events c ++ t) = true.
Proof. reflexivity. Qed.

Lemma poll_state_cases c a :
  (iteration a + 1 < update_cycle_len a
   /\ iteration (state_of (update c a)) = iteration a + 1
   /\ update_cycle_len (state_of (update c a)) = update_cycle_len a
   /\ polled (trace_of (update c a)) = false)
  \/ (update_cycle_len a <= iteration a + 1
      /\ iteration (state_of (update c a)) = 0
      /\ update_cycle_len (state_of (update c a))
         = Z.min (2 * update_cycle_len a) MAX_UPDATE_CYCLE_LEN
      /\ polled (trace_of (update c a)) = true).
Proof.
  destruct (Z.ltb_spec (iteration a + 1) (update_cycle_len a)) as [Hlt|Hge].
  - left. rewrite (update_skip c a Hlt). now cbn.
  - right. rewrite (update_poll_state c a Hge), (update_poll_trace c a Hge).
    destruct (render_menu_poll_state c (advanced a)) as (-> & -> & _).
    now rewrite polled_poll_events.
Qed.

(** C1. One tick: the counter is incremented; while it stays below the
    cycle length the tick returns with nothing done but the increment
    (no call, no change of menu or presets); otherwise the counter is
    reset to 0, the cycle length becomes
    [min (2 * update_cycle_len) MAX_UPDATE_CYCLE_LEN], and the client is
    polled, once. *)
Theorem update_tick c a :
  let r := update c a in
  if iteration a + 1 <? update_cycle_len a
  then r = (Returned tt, with_iteration (iteration a + 1) a, [])
  else iteration (state_of r) = 0
       /\ update_cycle_len (state_of r)
          = Z.min (2 * update_cycle_len a) MAX_UPDATE_CYCLE_LEN
       /\ poll_calls (trace_of r) = 1%nat
       /\ polled (trace_of r) = true.
Proof.
  cbn zeta.
  destruct (Z.ltb_spec (iteration a + 1) (update_cycle_len a)) as [Hlt|Hge].
  - now apply update_skip.
  - destruct (poll_state_cases c a) as [(H & _)|(_ & Hi & Hc & Hp)]; [lia|].
    repeat split; try assumption.
    rewrite (update_poll_trace c a Hge), poll_calls_app.
    now rewrite poll_events_calls.
Qed.

(** *** The poll state along a run *)

Lemma run_app l1 l2 a : run (l1 ++ l2) a = run l2 (run l1 a).
Proof. revert a. induction l1 as [|x l1 IH]; intros a; cbn; [reflexivity|apply IH]. Qed.

Lemma history_app l1 l2 a :
  history (l1 ++ l2) a = history l1 a ++ history l2 (run l1 a).
Proof.
  revert a. induction l1 as [|x l1 IH]; intros a; cbn; [reflexivity|].
  now rewrite IH.
Qed.

Lemma rest_inv_poll_inv a : rest_inv a -> poll_inv a.
Proof. unfold rest_inv, poll_inv. lia. Qed.

Lemma poll_inv_init m p : rest_inv (init m p).
Proof. unfold rest_inv, init, MAX_UPDATE_CYCLE_LEN. cbn. lia. Qed.

Lemma update_poll_inv c a : poll_inv a -> rest_inv (state_of (update c a)).
Proof.
  unfold poll_inv, rest_inv, MAX_UPDATE_CYCLE_LEN.
  destruct (poll_state_cases c a) as [(H & -> & -> & _)|(H & -> & -> & _)];
    unfold MAX_UPDATE_CYCLE_LEN; lia.
Qed.

Lemma set_active_mode_poll_inv a : poll_inv a -> poll_inv (state_of (set_active_mode a)).
Proof. unfold poll_inv, MAX_UPDATE_CYCLE_LEN. cbn. lia. Qed.

Lemma perform_poll_inv act a : poll_inv a -> poll_inv (state_of (perform act a)).
Proof.
  destruct act as [c|]; cbn [perform]; intros H.
  - now apply rest_inv_poll_inv, update_poll_inv.
  - now apply set_active_mode_poll_inv.
Qed.

Lemma run_poll_inv acts a : poll_inv a -> poll_inv (run acts a).
Proof.
  revert a. induction acts as [|act acts IH]; intros a H; cbn; [assumption|].
  now apply IH, perform_poll_inv.
Qed.

(** *** Ticks elapsed since the last poll *)

Lemma ticks_since_poll_snoc h e :
  ticks_since_poll (h ++ [e]) =
  if entry_polled e then 0
  else if is_tick (action e) then ticks_since_poll h + 1
  else ticks_since_poll h.
Proof.
  unfold ticks_since_poll. rewrite rev_app_distr. cbn [rev app until_poll].
  destruct (entry_polled e); [reflexivity|]. cbn [filter].
  destruct (is_tick (action e)); [|reflexivity].
  cbn [List.length]. lia.
Qed.

Lemma history_snoc acts act a :
  history (acts ++ [act]) a
  = history acts a
    ++ [{| action := act; before := run acts a;
           events := trace_of (perform act (run acts a)) |}].
Proof. now rewrite history_app. Qed.

Lemma run_snoc acts act a :
  run (acts ++ [act]) a = state_of (perform act (run acts a)).
Proof. now rewrite run_app. Qed.

(** The counter of the application is the number of ticks elapsed
    since the last poll. *)
Lemma iteration_counts_ticks acts a :
  iteration a = 0 ->
  iteration (run acts a) = ticks_since_poll (history acts a).
Proof.
  intros H0. induction acts as [|act acts IH] using rev_ind.
  - now cbn.
  - rewrite run_snoc, history_snoc, ticks_since_poll_snoc.
    unfold entry_polled. cbn [action events].
    destruct act as [c|]; cbn [is_tick perform andb].
    + destruct (poll_state_cases c (run acts a)) as [(_ & -> & _ & ->)|(_ & -> & _ & ->)];
        [now rewrite IH | reflexivity].
    + exact IH.
Qed.

(** C4. After [set_active_mode], whatever the run that came before,
    the next tick polls. *)
Theorem poll_after_set_active_mode acts c m p :
  polled (trace_of (update c (state_of (set_active_mode (run acts (init m p)))))) = true.
Proof.
  pose proof (run_poll_inv acts (rest_inv_poll_inv (poll_inv_init m p))) as (_ & Hi).
  set (a := run acts (init m p)) in *.
  destruct (poll_state_cases c (state_of (set_active_mode a)))
    as [(H & _)|(_ & _ & _ & Hp)]; [|exact Hp].
  cbn in H. lia.
Qed.

(** C5. Along every run of ticks and resets from the initial state the
    cycle length stays at or below [MAX_UPDATE_CYCLE_LEN], which is 30. *)
Theorem cycle_len_bounded acts m p :
  update_cycle_len (run acts (init m p)) <= MAX_UPDATE_CYCLE_LEN
  /\ MAX_UPDATE_CYCLE_LEN = 30.
Proof.
  split; [|reflexivity].
  now destruct (run_poll_inv acts (rest_inv_poll_inv (poll_inv_init m p))) as ((_ & H) & _).
Qed.

(** C6, as the code has it.  In every state between ticks
    [1 <= update_cycle_len <= MAX_UPDATE_CYCLE_LEN] and
    [0 <= iteration < MAX_UPDATE_CYCLE_LEN]; [iteration < update_cycle_len]
    holds at start and after a tick; a reset leaves the cycle length 1
    and the counter as it was before the reset; the counter is 0 after
    a tick that polls. *)
Theorem poll_state_invariant acts m p :
  let a := run acts (init m p) in
  1 <= update_cycle_len a <= MAX_UPDATE_CYCLE_LEN
  /\ 0 <= iteration a < MAX_UPDATE_CYCLE_LEN
  /\ match last_action acts with
     | Some SetActiveMode =>
         update_cycle_len a = 1
         /\ iteration a = iteration (run (removelast acts) (init m p))
     | Some (Tick _) | None => iteration a < update_cycle_len a
     end
  /\ (iteration (state_of (set_active_mode a)) = iteration a
      /\ update_cycle_len (state_of (set_active_mode a)) = 1)
  /\ forall c, if polled (trace_of (update c a))
               then iteration (state_of (update c a)) = 0
               else iteration (state_of (update c a)) = iteration a + 1.
Proof.
  cbn zeta.
  pose proof (run_poll_inv acts (rest_inv_poll_inv (poll_inv_init m p))) as (Hc & Hi).
  split; [exact Hc|]. split; [exact Hi|]. split; [|split].
  - destruct acts as [|act acts _] using rev_ind.
    + cbn. lia.
    + unfold last_action. rewrite rev_app_distr. cbn [rev app].
      rewrite removelast_last, run_snoc.
      pose proof (run_poll_inv acts (rest_inv_poll_inv (poll_inv_init m p))) as Hinv.
      destruct act as [c|]; cbn [perform].
      * now destruct (update_poll_inv c Hinv) as (_ & _ & H).
      * split; reflexivity.
  - split; reflexivity.
  - intros c.
    now destruct (poll_state_cases c (run acts (init m p)))
      as [(_ & -> & _ & ->)|(_ & -> & _ & ->)].
Qed.

(** *** Runs without reset *)

Lemma run_no_reset_rest_inv acts a :
  forallb is_tick acts = true -> rest_inv a -> rest_inv (run acts a).
Proof.
  revert a. induction acts as [|[c|] acts IH]; intros a Hn H; cbn in *;
    [assumption| |discriminate].
  now apply IH, update_poll_inv, rest_inv_poll_inv.
Qed.

Lemma polls_snoc h e :
  polls (h ++ [e]) = (polls h + if entry_polled e then 1 else 0)%nat.
Proof.
  unfold polls. rewrite filter_app, length_app. cbn [filter].
  now destruct (entry_polled e).
Qed.

Lemma cycles_at_polls_snoc h e :
  cycles_at_polls (h ++ [e])
  = cycles_at_polls h ++ if entry_polled e then [update_cycle_len (before e)] else [].
Proof.
  unfold cycles_at_polls. rewrite filter_app, map_app. cbn [filter].
  now destruct (entry_polled e).
Qed.

Lemma tick_poll_state_update c a :
  tick_poll_state (poll_state a)
  = (poll_state (state_of (update c a)), polled (trace_of (update c a))).
Proof.
  unfold tick_poll_state, poll_state.
  destruct (poll_state_cases c a) as [(H & -> & -> & ->)|(H & -> & -> & ->)];
    destruct (Z.ltb_spec (iteration a + 1) (update_cycle_len a)); try lia; reflexivity.
Qed.

Lemma history_schedule cs a :
  map (fun e => (update_cycle_len (before e), entry_polled e)) (history (ticks cs) a)
  = schedule (List.length cs) (poll_state a).
Proof.
  revert a. induction cs as [|c cs IH]; intros a; [reflexivity|].
  cbn [ticks map history List.length schedule perform].
  rewrite (tick_poll_state_update c a).
  unfold entry_polled at 1. cbn [action before events is_tick andb poll_state snd].
  f_equal. apply IH.
Qed.

Lemma cycles_at_polls_schedule cs a :
  cycles_at_polls (history (ticks cs) a)
  = map fst (filter snd (schedule (List.length cs) (poll_state a))).
Proof.
  rewrite <- history_schedule. unfold cycles_at_polls.
  induction (history (ticks cs) a) as [|e h IH]; [reflexivity|].
  cbn [map filter snd]. destruct (entry_polled e); cbn [map fst]; now rewrite IH.
Qed.

Lemma double_capped k :
  Z.min (2 * Z.min (2 ^ Z.of_nat k) MAX_UPDATE_CYCLE_LEN) MAX_UPDATE_CYCLE_LEN
  = Z.min (2 ^ Z.of_nat (S k)) MAX_UPDATE_CYCLE_LEN.
Proof.
  rewrite Nat2Z.inj_succ, Z.pow_succ_r by lia.
  assert (0 < 2 ^ Z.of_nat k) by (apply Z.pow_pos_nonneg; lia).
  unfold MAX_UPDATE_CYCLE_LEN. lia.
Qed.

Lemma cycle_len_after_polls cs m p :
  update_cycle_len (run (ticks cs) (init m p))
  = Z.min (2 ^ Z.of_nat (polls (history (ticks cs) (init m p)))) MAX_UPDATE_CYCLE_LEN.
Proof.
  induction cs as [|c cs IH] using rev_ind; [reflexivity|].
  unfold ticks in *. rewrite map_app. cbn [map].
  rewrite run_snoc, history_snoc, polls_snoc.
  unfold entry_polled. cbn [action events is_tick andb perform].
  destruct (poll_state_cases c (run (map Tick cs) (init m p)))
    as [(_ & _ & -> & ->)|(_ & _ & -> & ->)].
  - now rewrite Nat.add_0_r.
  - rewrite IH, double_capped. now rewrite Nat.add_1_r.
Qed.

(** C2. Along ticks alone from the initial state: the cycle length
    never decreases; after the k-th executed poll it is
    [min (2^k) MAX_UPDATE_CYCLE_LEN]; the cycle lengths in effect at the
    successive polls are [min (2^j) 30] for j = 0, 1, ..., and the 121
    first ticks make exactly the polls at cycle lengths
    1, 2, 4, 8, 16, 30, 30, 30. *)
Theorem backoff_doubles cs m p :
  let a := run (ticks cs) (init m p) in
  let h := history (ticks cs) (init m p) in
  update_cycle_len a = Z.min (2 ^ Z.of_nat (polls h)) MAX_UPDATE_CYCLE_LEN
  /\ (forall c, update_cycle_len a
                <= update_cycle_len (run (ticks (cs ++ [c])) (init m p)))
  /\ cycles_at_polls h
     = map (fun j => Z.min (2 ^ Z.of_nat j) MAX_UPDATE_CYCLE_LEN) (seq 0 (polls h))
  /\ (List.length cs = 121%nat -> cycles_at_polls h = [1; 2; 4; 8; 16; 30; 30; 30]).
Proof.
  cbn zeta. repeat split.
  - apply cycle_len_after_polls.
  - intros c. unfold ticks. rewrite map_app. cbn [map]. rewrite run_snoc. cbn [perform].
    pose proof (run_poll_inv (map Tick cs) (rest_inv_poll_inv (poll_inv_init m p)))
      as ((H1 & H2) & _).
    destruct (poll_state_cases c (run (map Tick cs) (init m p)))
      as [(_ & _ & -> & _)|(_ & _ & -> & _)]; unfold MAX_UPDATE_CYCLE_LEN in *; lia.
  - induction cs as [|c cs IH] using rev_ind; [reflexivity|].
    pose proof (cycle_len_after_polls cs m p) as Hc.
    unfold ticks in *. rewrite map_app. cbn [map].
    rewrite history_snoc, polls_snoc, cycles_at_polls_snoc, IH.
    unfold entry_polled. cbn [action events before is_tick andb perform].
    destruct (polled (trace_of (update c (run (map Tick cs) (init m p))))).
    + rewrite Nat.add_1_r, seq_S, map_app. cbn [map Nat.add]. now rewrite Hc.
    + now rewrite Nat.add_0_r, app_nil_r.
  - intros Hlen. rewrite cycles_at_polls_schedule, Hlen. now vm_compute.
Qed.

(** C3, as the code has it.  A tick polls exactly when the number of
    ticks elapsed since the last executed poll (or since start), this
    tick included, is at least the cycle length in effect; in a run
    without reset that is when it equals the cycle length; a tick that
    does not poll does nothing but count. *)
Theorem poll_when_cycle_elapsed acts c m p :
  let a := run acts (init m p) in
  let elapsed := ticks_since_poll (history acts (init m p)) + 1 in
  (polled (trace_of (update c a)) = true <-> update_cycle_len a <= elapsed)
  /\ (forallb is_tick acts = true ->
      (polled (trace_of (update c a)) = true <-> elapsed = update_cycle_len a))
  /\ (polled (trace_of (update c a)) = false ->
      update c a = (Returned tt, with_iteration (iteration a + 1) a, [])).
Proof.
  cbn zeta. rewrite <- (iteration_counts_ticks acts (init m p) eq_refl).
  set (a := run acts (init m p)).
  assert (Hrest : forallb is_tick acts = true -> iteration a < update_cycle_len a).
  { intros Hn. now destruct (run_no_reset_rest_inv acts Hn (poll_inv_init m p)) as (_ & _ & Hlt). }
  destruct (poll_state_cases c a) as [(H & _ & _ & Hp)|(H & _ & _ & Hp)]; rewrite Hp.
  - split; [|split].
    + split; [discriminate|lia].
    + intros _. split; [discriminate|lia].
    + intros _. now apply update_skip.
  - split; [|split].
    + split; [lia|reflexivity].
    + intros Hn. specialize (Hrest Hn). split; [lia|reflexivity].
    + discriminate.
Qed.

(** *** Errors of the poll *)

Lemma render_calls_app t1 t2 :
  render_calls (t1 ++ t2) = (render_calls t1 + render_calls t2)%nat.
Proof. unfold render_calls. now rewrite filter_app, length_app. Qed.

Lemma polled_inv c a :
  polled (trace_of (update c a)) = true -> update_cycle_len a <= iteration a + 1.
Proof.
  intros Hp. destruct (poll_state_cases c a) as [(_ & _ & _ & H)|(H & _)]; [congruence|exact H].
Qed.

(** C7. In an executed poll where [self.client.update()] raises
    [AuthenticationError]: [show_updates] is not called, the one
    notification posted is the one about the token, and the poll state
    has advanced: counter 0, cycle length doubled and capped. *)
Theorem authentication_error_poll c a :
  polled (trace_of (update c a)) = true ->
  client_update c = Raised AuthenticationError ->
  show_updates_calls (trace_of (update c a)) = 0%nat
  /\ notifications (trace_of (update c a)) = [auth_notification]
  /\ iteration (state_of (update c a)) = 0
  /\ update_cycle_len (state_of (update c a))
     = Z.min (2 * update_cycle_len a) MAX_UPDATE_CYCLE_LEN.
Proof.
  intros Hp Hc. pose proof (polled_inv c a Hp) as Hge.
  destruct (poll_state_cases c a) as [(H & _)|(_ & Hi & Hl & _)]; [lia|].
  rewrite (update_poll_trace c a Hge). unfold poll_events. rewrite Hc.
  repeat split; assumption.
Qed.

(** The notification about the token is posted for no outcome of the
    poll but [AuthenticationError] or a [ValueError] with that text. *)
Lemma auth_notification_origin c a :
  In auth_notification (trace_of (update c a)) ->
  client_update c = Raised AuthenticationError
  \/ client_update c = Raised (ValueError "You may be using the wrong token").
Proof.
  destruct (poll_state_cases c a) as [(H & _)|(H & _)].
  - now rewrite (update_skip c a H).
  - rewrite (update_poll_trace c a H). unfold poll_events.
    destruct (client_update c) as [us|[msg| |msg]]; cbn; intros Hin.
    + destruct Hin as [Hin|[Hin|Hin]]; try discriminate.
      apply in_app_or in Hin. destruct Hin as [Hin|Hin].
      * apply in_map_iff in Hin. destruct Hin as ([i|i] & Hu & _); discriminate.
      * cbn in Hin. intuition discriminate.
    + destruct Hin as [Hin|[Hin|Hin]]; try discriminate.
      * right. unfold auth_notification in Hin. congruence.
      * cbn in Hin. intuition discriminate.
    + now left.
    + cbn in Hin. intuition discriminate.
Qed.

(** C8, as the code has it.  What [self.client.update()] raises (any
    exception derived from [Exception]) is caught: the outcome of a tick
    does not depend on it.  [render_menu] runs after the [try]
    statement: a polling tick returns when [get_active_jobs] returns
    jobs whose timestamps all parse and are all naive or all aware, and
    otherwise raises what the re-render raised: the error of the
    listing, of [fromisoformat], or the [TypeError] of the comparison. *)
Theorem update_outcome c a :
  outcome (update c a) =
  if iteration a + 1 <? update_cycle_len a then Returned tt
  else match client_get_active_jobs c with
       | Raised e => Raised e
       | Returned active =>
           match keyed active with
           | Raised e => Raised e
           | Returned ks => if comparable ks then Returned tt else Raised type_error
           end
       end.
Proof.
  destruct (Z.ltb_spec (iteration a + 1) (update_cycle_len a)) as [Hlt|Hge].
  - now rewrite (update_skip c a Hlt).
  - rewrite (update_poll_outcome c a Hge), render_menu_eq.
    destruct (client_get_active_jobs c) as [active|e]; [|reflexivity].
    unfold sorted_by_created. destruct (keyed active) as [ks|e]; [|reflexivity].
    now destruct (comparable ks).
Qed.

(** *** [sorted]: a sorted permutation *)

Lemma insert_perm x l : Permutation (x :: l) (insert x l).
Proof.
  induction l as [|y l IH]; cbn; [reflexivity|].
  destruct (dt_lt (fst y) (fst x)); [|reflexivity].
  rewrite perm_swap. now constructor.
Qed.

Lemma sort_keyed_perm l : Permutation l (sort_keyed l).
Proof.
  induction l as [|x l IH]; cbn; [constructor|].
  rewrite <- insert_perm. now constructor.
Qed.

Section Order.
Context {DTO : DateTimeOrder DT}.

Lemma dt_lt_asym a b : dt_lt a b = true -> dt_lt b a = false.
Proof.
  intros H. destruct (dt_lt b a) eqn:E; [|reflexivity].
  rewrite <- (dt_lt_irrefl a). symmetry. now apply dt_lt_trans with b.
Qed.

Lemma insert_sorted x l :
  StronglySorted key_le l -> StronglySorted key_le (insert x l).
Proof.
  induction 1 as [|y l Hs IH Hy]; cbn.
  - repeat constructor.
  - destruct (dt_lt (fst y) (fst x)) eqn:E.
    + constructor; [exact IH|].
      rewrite <- insert_perm. constructor; [|exact Hy].
      now apply dt_lt_asym.
    + constructor; [now constructor|].
      constructor; [exact E|].
      eapply Forall_impl; [|exact Hy].
      intros z Hz. unfold key_le in *. now apply dt_lt_ties with (fst y).
Qed.

Lemma sort_keyed_sorted l : StronglySorted key_le (sort_keyed l).
Proof.
  induction l as [|x l IH]; cbn; [constructor|now apply insert_sorted].
Qed.
End Order.

Lemma keyed_spec jobs ks :
  keyed jobs = Returned ks ->
  map snd ks = jobs
  /\ Forall (fun kj => fromisoformat (created_at (snd kj)) = Returned (fst kj)) ks.
Proof.
  revert ks. induction jobs as [|j jobs IH]; cbn; intros ks H.
  - injection H as <-. now split.
  - destruct (fromisoformat (created_at j)) as [k|e] eqn:Ek; [|discriminate].
    destruct (keyed jobs) as [ks'|e]; [|discriminate].
    injection H as <-. destruct (IH ks' eq_refl) as (Hm & Hf).
    cbn. split; [now rewrite Hm|now constructor].
Qed.

Lemma keyed_total jobs :
  (forall j, In j jobs -> exists k, fromisoformat (created_at j) = Returned k) ->
  exists ks, keyed jobs = Returned ks.
Proof.
  induction jobs as [|j jobs IH]; cbn; intros H; [now eexists|].
  destruct (H j (or_introl eq_refl)) as (k & ->).
  destruct IH as (ks & ->); [intros j' Hj'; apply H; now right|].
  now eexists.
Qed.

Lemma keyed_comparable jobs ks :
  keyed jobs = Returned ks -> same_awareness jobs -> comparable ks = true.
Proof.
  intros Hk Hs. destruct (keyed_spec jobs Hk) as (Hm & Hf).
  destruct ks as [|k rest]; [reflexivity|]. cbn [comparable].
  apply forallb_forall. intros x Hx. apply Bool.eqb_true_iff.
  rewrite Forall_forall in Hf.
  apply (Hs (snd x) (snd k)).
  - rewrite <- Hm. apply in_map. now right.
  - rewrite <- Hm. now left.
  - apply Hf. now right.
  - apply Hf. now left.
Qed.

Lemma sorted_by_created_spec {DTO : DateTimeOrder DT} jobs :
  (forall j, In j jobs -> exists k, fromisoformat (created_at j) = Returned k) ->
  same_awareness jobs ->
  exists sorted_jobs,
    sorted_by_created jobs = Returned sorted_jobs
    /\ Permutation jobs sorted_jobs
    /\ StronglySorted created_le sorted_jobs.
Proof.
  intros H Haw. destruct (keyed_total jobs H) as (ks & Hk).
  unfold sorted_by_created. rewrite Hk, (keyed_comparable Hk Haw).
  eexists. split; [reflexivity|].
  destruct (keyed_spec jobs Hk) as (Hm & Hf). split.
  - rewrite <- Hm. apply Permutation_map, sort_keyed_perm.
  - pose proof (sort_keyed_sorted ks) as Hs.
    assert (Hf' : Forall (fun kj => fromisoformat (created_at (snd kj)) = Returned (fst kj))
                    (sort_keyed ks)).
    { rewrite Forall_forall in *. intros x Hx. apply Hf.
      eapply Permutation_in; [symmetry; apply sort_keyed_perm|exact Hx]. }
    induction Hs as [|x l Hs IH Hx]; cbn; constructor.
    + apply IH. now inversion Hf'.
    + inversion Hf' as [|? ? Hkx Hl]; subst.
      rewrite Forall_forall in *. intros j Hj.
      apply in_map_iff in Hj. destruct Hj as (y & <- & Hy).
      intros k1 k2 H1 H2. rewrite Hkx in H1. rewrite (Hl y Hy) in H2.
      injection H1 as <-. injection H2 as <-. now apply Hx.
Qed.

Lemma render_job_item_shows j : entry_shows (render_job_item j) j.
Proof.
  exists (job_name j). split; [reflexivity|]. unfold job_name.
  now destruct (description j) as [[|ch d]|].
Qed.

Lemma job_entries_show jobs : Forall2 entry_shows (map render_job_item jobs) jobs.
Proof.
  induction jobs as [|j jobs IH]; cbn; constructor; [apply render_job_item_shows|exact IH].
Qed.

Lemma render_calls_of_poll_events c : render_calls (poll_events c) = 0%nat.
Proof.
  unfold render_calls, poll_events. cbn.
  destruct (client_update c) as [us|[msg| |msg]]; cbn; try reflexivity.
  induction us as [|[i|i] us IH]; cbn; auto.
Qed.


(** *** Presets *)

Lemma update_preset_loop_spec preset remove its new_presets is_found :
  update_preset_loop preset remove its new_presets is_found
  = (new_presets
     ++ (if remove then removed preset its
         else map (fun it => if same_id preset it then preset else it) its),
     is_found || existsb (same_id preset) its).
Proof.
  revert new_presets is_found.
  induction its as [|it its IH]; intros new_presets is_found; cbn.
  - destruct remove; now rewrite app_nil_r, orb_false_r.
  - change (String.eqb (preset_id it) (preset_id preset)) with (same_id preset it).
    unfold removed. cbn [filter].
    destruct (same_id preset it); rewrite IH; cbn [negb orb].
    + destruct remove; cbn [negb]; rewrite ?orb_true_r, <- ?app_assoc; reflexivity.
    + destruct remove; rewrite <- ?app_assoc; reflexivity.
Qed.

(** C10. [update_preset(p)] stores the presets with every entry of
    [p]'s id replaced by [p] where it stands, the others as they were,
    and [p] appended when no entry has its id;
    [update_preset(p, remove=True)] stores them without the entries of
    [p]'s id, the others as they were and in order. *)
Theorem update_preset_stores preset a :
  presets (state_of (update_preset preset false a))
  = replaced_or_appended preset (presets a)
  /\ presets (state_of (update_preset preset true a)) = removed preset (presets a).
Proof.
  unfold update_preset. rewrite !bind_get. cbn [modify state_of fst snd presets with_presets].
  unfold update_presets. rewrite !update_preset_loop_spec. cbn [app orb negb].
  split.
  - unfold replaced_or_appended.
    now destruct (existsb (same_id preset) (presets a)); rewrite ?app_nil_r.
  - now rewrite andb_false_r.
Qed.

End Properties.

(** ** The date model is ordered *)

#[export] Instance IsoDate_order : DateTimeOrder IsoDate.
Proof.
  split; cbn; intros.
  - apply Z.ltb_irrefl.
  - rewrite Z.ltb_lt in *. lia.
  - rewrite Z.ltb_ge in *. lia.
Qed.

(** ** The properties at work on the examples *)

(** The first ticks of the application: tick 1 polls at cycle length 1,
    tick 2 does nothing, tick 3 polls at cycle length 2, tick 4 does
    nothing. *)
Example first_ticks :
  map (fun e => (update_cycle_len (before e), entry_polled e))
      (history (ticks (repeat quiet 4)) start)
  = [(1, true); (2, false); (2, true); (4, false)].
Proof. reflexivity. Qed.

Lemma backoff_doubles_witness :
  List.length (repeat quiet 121) = 121%nat
  /\ cycles_at_polls (history (ticks (repeat quiet 121)) start) = [1; 2; 4; 8; 16; 30; 30; 30].
Proof.
  split; [reflexivity|].
  apply (proj2 (proj2 (proj2 (backoff_doubles (repeat quiet 121) [Item "Quit" []] [])))).
  reflexivity.
Defined.

(** C3 as stated fails: after two ticks and a reset, the third tick
    polls although two ticks have elapsed since the last poll and the
    cycle length in effect is 1. *)
Lemma poll_with_elapsed_above_cycle :
  ~ (polled (trace_of (update quiet (run reset_after_two_ticks start))) = true
     <-> ticks_since_poll (history reset_after_two_ticks start) + 1
         = update_cycle_len (run reset_after_two_ticks start)).
Proof. vm_compute. intros [H _]. specialize (H eq_refl). discriminate. Qed.

Lemma poll_when_cycle_elapsed_witness :
  (forallb is_tick [Tick quiet; Tick quiet] = true
   /\ (polled (trace_of (update quiet (run [Tick quiet; Tick quiet] start))) = true
       <-> ticks_since_poll (history [Tick quiet; Tick quiet] start) + 1
           = update_cycle_len (run [Tick quiet; Tick quiet] start)))
  /\ (polled (trace_of (update quiet (run [Tick quiet] start))) = false
      /\ update quiet (run [Tick quiet] start)
         = (Returned tt,
            with_iteration (iteration (run [Tick quiet] start) + 1) (run [Tick quiet] start),
            [])).
Proof.
  split.
  - split; [reflexivity|].
    apply (proj1 (proj2 (poll_when_cycle_elapsed [Tick quiet; Tick quiet] quiet
                           [Item "Quit" []] []))).
    reflexivity.
  - split; [reflexivity|].
    apply (proj2 (proj2 (poll_when_cycle_elapsed [Tick quiet] quiet [Item "Quit" []] []))).
    reflexivity.
Defined.

(** C6 as stated fails: after two ticks the counter is 1, and a reset
    sets the cycle length to 1 without touching the counter. *)
Lemma counter_not_below_cycle_after_reset :
  ~ (1 <= update_cycle_len (run reset_after_two_ticks start) <= MAX_UPDATE_CYCLE_LEN
     /\ 0 <= iteration (run reset_after_two_ticks start)
          < update_cycle_len (run reset_after_two_ticks start)).
Proof. vm_compute. intros (_ & _ & H). discriminate. Qed.

Lemma authentication_error_poll_witness :
  polled (trace_of (update refused start)) = true
  /\ client_update refused = Raised AuthenticationError
  /\ show_updates_calls (trace_of (update refused start)) = 0%nat
  /\ notifications (trace_of (update refused start)) = [auth_notification]
  /\ iteration (state_of (update refused start)) = 0
  /\ update_cycle_len (state_of (update refused start))
     = Z.min (2 * update_cycle_len start) MAX_UPDATE_CYCLE_LEN.
Proof.
  split; [reflexivity|]. split; [reflexivity|].
  apply (authentication_error_poll refused start); reflexivity.
Defined.

(** C8 as stated fails: an error raised while the menu is rendered, by
    the listing of the active jobs or by the parsing of a timestamp,
    leaves [update] as an exception. *)
Lemma update_raises_from_render_menu :
  outcome (update listing_fails start) = Raised AuthenticationError
  /\ outcome (update bad_timestamp start)
     = Raised (ValueError "Invalid isoformat string: 'yesterday'").
Proof. split; reflexivity. Qed.

Lemma three_jobs_parse :
  forall j, In j three_jobs -> exists k, fromisoformat (created_at j) = Returned k.
Proof.
  intros j [<-|[<-|[<-|[]]]]; eexists; reflexivity.
Defined.

Lemma dates_same_awareness (jobs : list JobDescription) : same_awareness jobs.
Proof. intros j1 j2 k1 k2 _ _ _ _. reflexivity. Defined.



(** ** Further properties of the methods *)

Section Notifications.
Context {DT : DateTime}.


Lemma notifications_updates us t :
  notifications (map update_notification us ++ t)
  = map update_notification us ++ notifications t.
Proof.
  unfold notifications. rewrite filter_app. f_equal.
  induction us as [|[i|i] us IH]; cbn; [reflexivity| |]; now rewrite IH.
Qed.

Lemma show_updates_calls_updates us t :
  show_updates_calls (map update_notification us ++ t) = show_updates_calls t.
Proof.
  unfold show_updates_calls. rewrite filter_app, length_app.
  replace (filter is_show_updates (map update_notification us)) with (@nil Event);
    [reflexivity|].
  induction us as [|[i|i] us IH]; cbn; auto.
Qed.

Lemma render_calls_poll_events c : render_calls (poll_events c) = 0%nat.
Proof.
  unfold render_calls, poll_events. cbn.
  destruct (client_update c) as [us|[msg| |msg]]; cbn; try reflexivity.
  induction us as [|[i|i] us IH]; cbn; auto.
Qed.

Lemma render_calls_poll c a :
  update_cycle_len a <= iteration a + 1 -> render_calls (trace_of (update c a)) = 1%nat.
Proof.
  intros H. rewrite (update_poll_trace c a H), render_calls_app.
  now rewrite render_calls_poll_events.
Qed.

(** X1. [show_updates] posts one notification for every update, in the
    order of the list, changes nothing in the application and returns. *)
Theorem show_updates_one_per_update updates a :
  outcome (show_updates updates a) = Returned tt
  /\ state_of (show_updates updates a) = a
  /\ notifications (trace_of (show_updates updates a)) = map update_notification updates
  /\ List.length (notifications (trace_of (show_updates updates a))) = List.length updates.
Proof.
  assert (H : show_updates updates a
              = (Returned tt, a, CallShowUpdates updates :: map update_notification updates)).
  { unfold show_updates, bind, emit. now rewrite for_each_show_update. }
  rewrite H. unfold outcome, state_of, trace_of. cbn [fst snd].
  assert (Hn : notifications (CallShowUpdates updates :: map update_notification updates)
               = map update_notification updates).
  { change (notifications (CallShowUpdates updates :: map update_notification updates))
      with (notifications (map update_notification updates)).
    rewrite <- (app_nil_r (map update_notification updates)) at 1.
    rewrite notifications_updates. apply app_nil_r. }
  rewrite Hn. repeat split. apply length_map.
Qed.


(** X3. A polling tick in which [self.client.update()] raises
    [ValueError]: the one notification carries the text of the error,
    [show_updates] is not called, and the menu is rendered once. *)
Theorem value_error_poll c a msg :
  polled (trace_of (update c a)) = true ->
  client_update c = Raised (ValueError msg) ->
  notifications (trace_of (update c a))
  = [Notification "Failed to get updates" EmptyString msg]
  /\ show_updates_calls (trace_of (update c a)) = 0%nat
  /\ render_calls (trace_of (update c a)) = 1%nat.
Proof.
  intros Hp Hc. pose proof (polled_inv c a Hp) as Hge.
  split; [|split]; [| |now apply render_calls_poll].
  - rewrite (update_poll_trace c a Hge). unfold poll_events. now rewrite Hc.
  - rewrite (update_poll_trace c a Hge). unfold poll_events. now rewrite Hc.
Qed.

(** X4. A polling tick in which [self.client.update()] raises any
    other exception derived from [Exception]: nothing is notified, [show_updates] is not called,
    the menu is rendered once, and the backoff has advanced. *)
Theorem other_error_poll c a msg :
  polled (trace_of (update c a)) = true ->
  client_update c = Raised (OtherException msg) ->
  notifications (trace_of (update c a)) = []
  /\ show_updates_calls (trace_of (update c a)) = 0%nat
  /\ render_calls (trace_of (update c a)) = 1%nat
  /\ iteration (state_of (update c a)) = 0
  /\ update_cycle_len (state_of (update c a))
     = Z.min (2 * update_cycle_len a) MAX_UPDATE_CYCLE_LEN.
Proof.
  intros Hp Hc. pose proof (polled_inv c a Hp) as Hge.
  destruct (poll_state_cases c a) as [(H & _)|(_ & Hi & Hl & _)]; [lia|].
  split; [|split; [|split; [now apply render_calls_poll|now split]]].
  - rewrite (update_poll_trace c a Hge). unfold poll_events. now rewrite Hc.
  - rewrite (update_poll_trace c a Hge). unfold poll_events. now rewrite Hc.
Qed.

(** X5. A polling tick in which [self.client.update()] returns:
    [show_updates] is called once, with the updates delivered, the
    notifications are those of the updates, in order, and the menu is
    rendered once, after them. *)
Theorem successful_poll c a updates :
  polled (trace_of (update c a)) = true ->
  client_update c = Returned updates ->
  trace_of (update c a)
  = [CallClientUpdate; CallShowUpdates updates]
    ++ map update_notification updates ++ [CallRenderMenu; CallGetActiveJobs]
  /\ show_updates_calls (trace_of (update c a)) = 1%nat
  /\ notifications (trace_of (update c a)) = map update_notification updates.
Proof.
  intros Hp Hc. pose proof (polled_inv c a Hp) as Hge.
  rewrite (update_poll_trace c a Hge). unfold poll_events. rewrite Hc.
  split; [reflexivity|]. cbn [app]. split.
  - change (show_updates_calls (CallClientUpdate :: CallShowUpdates updates
              :: map update_notification updates ++ [CallRenderMenu; CallGetActiveJobs]))
      with (S (show_updates_calls
                 (map update_notification updates ++ [CallRenderMenu; CallGetActiveJobs]))).
    now rewrite show_updates_calls_updates.
  - change (notifications (CallClientUpdate :: CallShowUpdates updates
              :: map update_notification updates ++ [CallRenderMenu; CallGetActiveJobs]))
      with (notifications
              (map update_notification updates ++ [CallRenderMenu; CallGetActiveJobs])).
    rewrite notifications_updates. apply app_nil_r.
Qed.

Lemma update_keeps_presets c a : presets (state_of (update c a)) = presets a.
Proof.
  destruct (Z.ltb_spec (iteration a + 1) (update_cycle_len a)) as [Hlt|Hge].
  - now rewrite (update_skip c a Hlt).
  - rewrite (update_poll_state c a Hge).
    now destruct (render_menu_poll_state c (advanced a)) as (_ & _ & ->).
Qed.

(** X6. The timer never touches the presets: along every run of ticks
    and resets, whatever the client delivers or raises, the stored
    presets stay as they were. *)
Theorem run_keeps_presets acts a : presets (run acts a) = presets a.
Proof.
  revert a. induction acts as [|act acts IH]; intros a; cbn [run]; [reflexivity|].
  rewrite IH. destruct act as [c|]; cbn [perform].
  - apply update_keeps_presets.
  - reflexivity.
Qed.

End Notifications.

(** ** Rendering the menu again and again *)

Section Rendering_again.
Context {DT : DateTime}.

Lemma find_app_none {A} (f : A -> bool) l1 l2 :
  Forall (fun x => f x = false) l1 -> find f (l1 ++ l2) = find f l2.
Proof.
  induction 1 as [|x l1 Hx _ IH]; cbn; [reflexivity|]. now rewrite Hx.
Qed.

Lemma sorted_by_created_perm active jobs :
  sorted_by_created active = Returned jobs -> Permutation active jobs.
Proof.
  unfold sorted_by_created. destruct (keyed active) as [ks|e] eqn:Hk; [|discriminate].
  destruct (comparable ks); [|discriminate].
  intros H. injection H as <-. destruct (keyed_spec active Hk) as (<- & _).
  apply Permutation_map, sort_keyed_perm.
Qed.

Lemma no_job_named_perm t l l' :
  Permutation l l' -> no_job_named t l -> no_job_named t l'.
Proof. unfold no_job_named. intros Hp H. now rewrite <- Hp. Qed.

Lemma job_section_untitled t jobs :
  t <> "No active jobs" -> no_job_named t jobs ->
  Forall (fun m => has_title t m = false) (job_section jobs).
Proof.
  intros Ht H. destruct jobs as [|j jobs].
  - constructor; [|constructor]. unfold has_title. cbn [item_title].
    apply String.eqb_neq. congruence.
  - unfold job_section. apply Forall_map. eapply Forall_impl; [|exact H].
    intros j' Hj'. unfold has_title, render_job_item. cbn [item_title].
    now apply String.eqb_neq.
Qed.

Lemma menu_get_app t l1 l2 :
  menu_get t (l1 ++ l2)
  = match menu_get t l2 with Some x => Some x | None => menu_get t l1 end.
Proof.
  unfold menu_get. rewrite rev_app_distr.
  induction (rev l2) as [|x l IH]; cbn; [reflexivity|].
  now destruct (has_title t x).
Qed.

Lemma menu_get_untitled t l :
  Forall (fun m => has_title t m = false) l -> menu_get t l = None.
Proof.
  intros H. unfold menu_get.
  destruct (find (has_title t) (rev l)) as [x|] eqn:E; [|reflexivity].
  apply find_some in E. destruct E as (Hin & Ht).
  apply in_rev in Hin. rewrite Forall_forall in H. rewrite (H x Hin) in Ht. discriminate.
Qed.

Lemma menu_get_quit_tail a :
  menu_get "Quit" (menu_tail a) = menu_get "Quit" (menu a).
Proof.
  unfold menu_tail.
  destruct (menu_get "Quit" (menu a)) as [q|] eqn:Hq; [|reflexivity].
  unfold menu_get in *. apply find_some in Hq. destruct Hq as (_ & Hq).
  cbn. now rewrite Hq.
Qed.

Lemma menu_get_quit_rendered a jobs :
  no_job_named "Quit" jobs ->
  menu_get "Quit" (menu_head ++ job_section jobs ++ menu_tail a) = menu_get "Quit" (menu a).
Proof.
  intros H. rewrite !menu_get_app, menu_get_quit_tail.
  rewrite (@menu_get_untitled "Quit" (job_section jobs))
    by (apply job_section_untitled; [discriminate|exact H]).
  now destruct (menu_get "Quit" (menu a)).
Qed.

Lemma render_menu_returns c a :
  outcome (render_menu c a) = Returned tt ->
  exists active jobs,
    client_get_active_jobs c = Returned active
    /\ sorted_by_created active = Returned jobs
    /\ state_of (render_menu c a)
       = with_menu (menu_head ++ job_section jobs ++ menu_tail a) a.
Proof.
  rewrite render_menu_eq.
  destruct (client_get_active_jobs c) as [active|e]; [|discriminate].
  destruct (sorted_by_created active) as [jobs|e] eqn:Hs; [|discriminate].
  intros _. now exists active, jobs.
Qed.

Lemma render_menu_raises c a e :
  outcome (render_menu c a) = Raised e -> state_of (render_menu c a) = with_menu menu_head a.
Proof.
  rewrite render_menu_eq.
  destruct (client_get_active_jobs c) as [active|e']; [|reflexivity].
  destruct (sorted_by_created active) as [jobs|e']; [discriminate|reflexivity].
Qed.

(** X7. When the listing of the jobs or a timestamp fails inside
    [render_menu], the menu is left with its first three entries: the
    jobs, Create job, Presets and Quit are gone, and a later rendering
    that succeeds does not bring Quit back. *)
Theorem failed_render_loses_quit c a e c' active :
  outcome (render_menu c a) = Raised e ->
  menu (state_of (render_menu c a)) = menu_head
  /\ (client_get_active_jobs c' = Returned active ->
      no_job_named "Quit" active ->
      menu_get "Quit" (menu (state_of (render_menu c' (state_of (render_menu c a))))) = None).
Proof.
  intros He. rewrite (render_menu_raises c a He). split; [reflexivity|].
  intros Hc Hn. rewrite render_menu_eq, Hc.
  destruct (sorted_by_created active) as [jobs|e'] eqn:Hs; [|reflexivity].
  cbn [state_of fst snd menu with_menu].
  rewrite menu_get_quit_rendered; [reflexivity|].
  now apply no_job_named_perm with active; [apply sorted_by_created_perm|].
Qed.

(** X8. A rendering that returns keeps the Quit entry: what the menu
    holds under Quit afterwards is what it held before, as long as no
    active job is shown under that name. *)
Theorem quit_survives_render c a active :
  client_get_active_jobs c = Returned active ->
  no_job_named "Quit" active ->
  outcome (render_menu c a) = Returned tt ->
  menu_get "Quit" (menu (state_of (render_menu c a))) = menu_get "Quit" (menu a).
Proof.
  intros Hc Hn Ho. destruct (render_menu_returns c a Ho) as (active' & jobs & Hc' & Hs & ->).
  rewrite Hc in Hc'. injection Hc' as <-.
  cbn [menu with_menu]. apply menu_get_quit_rendered.
  now apply no_job_named_perm with active; [apply sorted_by_created_perm|].
Qed.

(** X9. Rendering is idempotent: with the same jobs delivered, a second
    [render_menu] leaves the application as the first left it (no
    entry piles up), as long as no active job is shown as Quit. *)
Theorem render_menu_idempotent c a active :
  client_get_active_jobs c = Returned active ->
  no_job_named "Quit" active ->
  outcome (render_menu c a) = Returned tt ->
  render_menu c (state_of (render_menu c a)) = render_menu c a.
Proof.
  intros Hc Hn Ho. destruct (render_menu_returns c a Ho) as (active' & jobs & Hc' & Hs & Hst).
  rewrite Hc in Hc'. injection Hc' as <-.
  assert (Hq : menu_get "Quit" (menu_head ++ job_section jobs ++ menu_tail a)
               = menu_get "Quit" (menu a)).
  { apply menu_get_quit_rendered.
    now apply no_job_named_perm with active; [apply sorted_by_created_perm|]. }
  rewrite Hst. rewrite !render_menu_eq, Hc, Hs.
  unfold menu_tail at 1. cbn [menu presets with_menu]. rewrite Hq. reflexivity.
Qed.

End Rendering_again.

(** ** The algebra of [update_preset] *)

Section Presets_algebra.

Lemma update_presets_store p l : update_presets p false l = replaced_or_appended p l.
Proof.
  unfold update_presets. rewrite update_preset_loop_spec. cbn [app orb negb].
  unfold replaced_or_appended.
  now destruct (existsb (same_id p) l); rewrite ?app_nil_r.
Qed.

Lemma update_presets_remove p l : update_presets p true l = removed p l.
Proof.
  unfold update_presets. rewrite update_preset_loop_spec. cbn [app orb negb].
  now rewrite andb_false_r.
Qed.

Lemma update_preset_presets p r a :
  presets (state_of (update_preset p r a)) = update_presets p r (presets a).
Proof. unfold update_preset. now rewrite bind_get. Qed.

Lemma same_id_refl p : same_id p p = true.
Proof. apply String.eqb_refl. Qed.

Lemma same_id_spec p it : same_id p it = true <-> preset_id it = preset_id p.
Proof. apply String.eqb_eq. Qed.

Lemma existsb_same_id p l : existsb (same_id p) l = true <-> In (preset_id p) (ids l).
Proof.
  unfold ids. rewrite existsb_exists, in_map_iff. split.
  - intros (it & Hin & Hs). exists it. split; [now apply same_id_spec|exact Hin].
  - intros (it & Hid & Hin). exists it. split; [exact Hin|now apply same_id_spec].
Qed.

Lemma removed_replaced p l :
  removed p (map (fun it => if same_id p it then p else it) l) = removed p l.
Proof.
  unfold removed. induction l as [|it l IH]; cbn; [reflexivity|].
  destruct (same_id p it) eqn:E; cbn.
  - now rewrite same_id_refl.
  - now rewrite E, IH.
Qed.

Lemma removed_fresh p l : ~ In (preset_id p) (ids l) -> removed p l = l.
Proof.
  unfold removed. induction l as [|it l IH]; cbn; intros H; [reflexivity|].
  destruct (same_id p it) eqn:E.
  - exfalso. apply H. left. now apply same_id_spec.
  - cbn. rewrite IH; [reflexivity|]. intros Hin. apply H. now right.
Qed.

Lemma removed_store p l : removed p (replaced_or_appended p l) = removed p l.
Proof.
  unfold replaced_or_appended, removed at 1. rewrite filter_app.
  change (filter (fun it => negb (same_id p it)) (map (fun it => if same_id p it then p else it) l))
    with (removed p (map (fun it => if same_id p it then p else it) l)).
  rewrite removed_replaced.
  destruct (existsb (same_id p) l); cbn; [|rewrite same_id_refl; cbn]; apply app_nil_r.
Qed.

Lemma ids_replaced p l : ids (map (fun it => if same_id p it then p else it) l) = ids l.
Proof.
  unfold ids. induction l as [|it l IH]; cbn; [reflexivity|]. rewrite IH. f_equal.
  destruct (same_id p it) eqn:E; [|reflexivity]. symmetry. now apply same_id_spec.
Qed.

Lemma ids_removed_incl p l x : In x (ids (removed p l)) -> In x (ids l).
Proof.
  unfold ids, removed. rewrite !in_map_iff. intros (it & Hid & Hin).
  apply filter_In in Hin. exists it. tauto.
Qed.

(** X10. Storing a preset and then removing it leaves the presets
    without any entry of its id; when the id was not stored before,
    that is the list one started from. *)
Theorem store_then_remove p a :
  let a' := state_of (update_preset p true (state_of (update_preset p false a))) in
  presets a' = removed p (presets a)
  /\ ~ In (preset_id p) (ids (presets a'))
  /\ (~ In (preset_id p) (ids (presets a)) -> presets a' = presets a).
Proof.
  cbn zeta. rewrite !update_preset_presets, update_presets_remove, update_presets_store.
  rewrite removed_store. split; [reflexivity|]. split.
  - unfold ids, removed. rewrite in_map_iff. intros (it & Hid & Hin).
    apply filter_In in Hin. destruct Hin as (_ & Hn).
    apply same_id_spec in Hid. now rewrite Hid in Hn.
  - apply removed_fresh.
Qed.

(** X11. [update_preset] is idempotent: storing the same preset twice,
    or removing it twice, is as doing it once. *)
Theorem update_preset_idempotent p r a :
  presets (state_of (update_preset p r (state_of (update_preset p r a))))
  = presets (state_of (update_preset p r a)).
Proof.
  rewrite !update_preset_presets. destruct r.
  - rewrite !update_presets_remove. unfold removed.
    induction (presets a) as [|it l IH]; cbn; [reflexivity|].
    destruct (same_id p it) eqn:E; cbn; [exact IH|]. now rewrite E, IH.
  - rewrite !update_presets_store.
    assert (Hex : existsb (same_id p) (replaced_or_appended p (presets a)) = true).
    { unfold replaced_or_appended. rewrite existsb_app.
      destruct (existsb (same_id p) (presets a)) eqn:E.
      - rewrite orb_false_r. apply existsb_same_id. rewrite ids_replaced.
        now apply existsb_same_id.
      - cbn. rewrite same_id_refl. apply orb_true_r. }
    unfold replaced_or_appended at 1. rewrite Hex, app_nil_r.
    unfold replaced_or_appended. rewrite map_app, map_map. f_equal.
    + apply map_ext. intros it. destruct (same_id p it) eqn:E;
        [now rewrite same_id_refl|now rewrite E].
    + destruct (existsb (same_id p) (presets a)); cbn; [reflexivity|].
      now rewrite same_id_refl.
Qed.

(** X12. Distinct ids stay distinct: when no two stored presets share
    an id, none do after [update_preset], with or without [remove],
    and storing a preset whose id is there keeps the number of presets. *)
Theorem update_preset_keeps_ids_distinct p r a :
  NoDup (ids (presets a)) ->
  NoDup (ids (presets (state_of (update_preset p r a))))
  /\ (r = false -> In (preset_id p) (ids (presets a)) ->
      ids (presets (state_of (update_preset p r a))) = ids (presets a)).
Proof.
  intros Hnd. rewrite update_preset_presets. split.
  - destruct r.
    + rewrite update_presets_remove. unfold ids, removed.
      induction (presets a) as [|it l IH]; cbn; [constructor|].
      inversion Hnd as [|? ? Hnot Hl]; subst.
      destruct (same_id p it); cbn; [now apply IH|].
      constructor; [|now apply IH].
      intros Hin. apply Hnot. now apply (ids_removed_incl p l).
    + rewrite update_presets_store. unfold replaced_or_appended, ids.
      rewrite map_app. fold (ids (map (fun it => if same_id p it then p else it) (presets a))).
      rewrite ids_replaced.
      destruct (existsb (same_id p) (presets a)) eqn:E; cbn; [now rewrite app_nil_r|].
      apply NoDup_app; [exact Hnd|repeat constructor; intros []|].
      intros x Hx [<-|[]]. apply existsb_same_id in Hx. congruence.
  - intros -> Hin. rewrite update_presets_store. unfold replaced_or_appended, ids.
    rewrite map_app. fold (ids (map (fun it => if same_id p it then p else it) (presets a))).
    rewrite ids_replaced. apply existsb_same_id in Hin. rewrite Hin. apply app_nil_r.
Qed.

(** X13. After a preset is stored it can be found: it is in the list,
    and every stored entry of its id is the preset itself. *)
Theorem stored_preset_is_found p a :
  let stored := presets (state_of (update_preset p false a)) in
  In p stored
  /\ Forall (fun it => preset_id it = preset_id p -> it = p) stored.
Proof.
  cbn zeta. rewrite update_preset_presets, update_presets_store.
  unfold replaced_or_appended. split.
  - apply in_or_app. destruct (existsb (same_id p) (presets a)) eqn:E.
    + left. apply existsb_exists in E. destruct E as (it & Hin & Hs).
      apply in_map_iff. exists it. now rewrite Hs.
    + right. now left.
  - apply Forall_app. split.
    + apply Forall_map. apply Forall_forall. intros it _.
      destruct (same_id p it) eqn:E; [reflexivity|].
      intros Hid. apply same_id_spec in Hid. congruence.
    + destruct (existsb (same_id p) (presets a)); repeat constructor.
Qed.

End Presets_algebra.

(** ** The handlers of the presets *)

Section Preset_handlers.
Context {DT : DateTime}.

Lemma update_preset_eq p r a :
  update_preset p r a = (Returned tt, with_presets (update_presets p r (presets a)) a, []).
Proof. unfold update_preset. now rewrite bind_get. Qed.

Lemma store_then_render p r c a :
  bind (update_preset p r) (fun _ => render_menu c) a
  = render_menu c (with_presets (update_presets p r (presets a)) a).
Proof.
  unfold bind at 1. rewrite update_preset_eq. cbn [app].
  now destruct (render_menu c _) as [[o a'] t].
Qed.

Lemma render_menu_outcome c a a' : outcome (render_menu c a) = outcome (render_menu c a').
Proof.
  rewrite !render_menu_eq.
  destruct (client_get_active_jobs c) as [active|e]; [|reflexivity].
  now destruct (sorted_by_created active).
Qed.

Lemma render_menu_shows_presets c a :
  outcome (render_menu c a) = Returned tt ->
  In (presets_item (presets a)) (menu (state_of (render_menu c a))).
Proof.
  intros Ho. destruct (render_menu_returns c a Ho) as (active & jobs & _ & _ & ->).
  cbn [menu with_menu]. apply in_or_app. right. apply in_or_app. right.
  unfold menu_tail. cbn. tauto.
Qed.

Lemma in_replaced_or_appended p l : In p (replaced_or_appended p l).
Proof.
  unfold replaced_or_appended. apply in_or_app.
  destruct (existsb (same_id p) l) eqn:E.
  - left. apply existsb_exists in E. destruct E as (it & Hin & Hs).
    apply in_map_iff. exists it. now rewrite Hs.
  - right. now left.
Qed.

Lemma store_and_render p c a :
  let r := bind (update_preset p false) (fun _ => render_menu c) a in
  presets (state_of r) = replaced_or_appended p (presets a)
  /\ outcome r = outcome (render_menu c a)
  /\ (outcome r = Returned tt ->
      exists sub, In (Item "Presets" sub) (menu (state_of r))
                  /\ In (render_preset_item p) sub).
Proof.
  cbn zeta. rewrite store_then_render.
  set (a1 := with_presets (update_presets p false (presets a)) a).
  destruct (render_menu_poll_state c a1) as (_ & _ & Hp).
  split; [|split].
  - rewrite Hp. unfold a1. cbn [presets with_presets]. apply update_presets_store.
  - apply render_menu_outcome.
  - intros Ho. pose proof (render_menu_shows_presets c a1 Ho) as Hin.
    unfold presets_item in Hin. eexists. split; [exact Hin|].
    apply in_or_app. left. apply in_map. unfold a1. cbn [presets with_presets].
    rewrite update_presets_store. apply in_replaced_or_appended.
Qed.

(** X14. [rename_preset] and [change_preset], once confirmed, store the
    edited preset before the menu is rendered: the change is kept even
    when the rendering raises, the handler raises exactly what the
    rendering raises, and a rendering that returns shows the edited
    preset under Presets. *)
Theorem edited_preset_is_stored_then_shown t c preset a :
  (let r := rename_preset (answer true t) c preset a in
   presets (state_of r) = replaced_or_appended (renamed t preset) (presets a)
   /\ outcome r = outcome (render_menu c a)
   /\ (outcome r = Returned tt ->
       exists sub, In (Item "Presets" sub) (menu (state_of r))
                   /\ In (render_preset_item (renamed t preset)) sub))
  /\ (let r := change_preset (answer true t) c preset a in
      presets (state_of r) = replaced_or_appended (reparametrized t preset) (presets a)
      /\ outcome r = outcome (render_menu c a)
      /\ (outcome r = Returned tt ->
          exists sub, In (Item "Presets" sub) (menu (state_of r))
                      /\ In (render_preset_item (reparametrized t preset)) sub)).
Proof.
  split.
  - apply (store_and_render (renamed t preset) c a).
  - apply (store_and_render (reparametrized t preset) c a).
Qed.

(** X15. [remove_preset], once confirmed, leaves no stored preset of
    that id, also when the rendering raises; a rendering that returns
    shows under Presets the presets that are left, and No presets when
    none is. *)
Theorem removed_preset_is_gone t c preset a :
  let r := remove_preset (answer true t) c preset a in
  presets (state_of r) = removed preset (presets a)
  /\ ~ In (preset_id preset) (ids (presets (state_of r)))
  /\ (outcome r = Returned tt ->
      In (presets_item (removed preset (presets a))) (menu (state_of r))
      /\ (removed preset (presets a) = [] ->
          In (Item "Presets" [Item "No presets" []; separator; Item "Create preset..." []])
             (menu (state_of r)))).
Proof.
  cbn zeta. unfold remove_preset. cbn [clicked answer]. rewrite store_then_render.
  set (a1 := with_presets (update_presets preset true (presets a)) a).
  destruct (render_menu_poll_state c a1) as (_ & _ & Hp).
  assert (Hp1 : presets a1 = removed preset (presets a))
    by (unfold a1; cbn [presets with_presets]; apply update_presets_remove).
  rewrite Hp, Hp1. split; [reflexivity|]. split.
  - unfold ids, removed. rewrite in_map_iff. intros (it & Hid & Hin).
    apply filter_In in Hin. destruct Hin as (_ & Hn).
    apply same_id_spec in Hid. now rewrite Hid in Hn.
  - intros Ho. pose proof (render_menu_shows_presets c a1 Ho) as Hin. rewrite Hp1 in Hin.
    split; [exact Hin|]. intros He. now rewrite He in Hin.
Qed.

End Preset_handlers.

(** ** Creating a preset *)

Section Create_preset.
Context {DT : DateTime}.

Lemma store_render_done p c a :
  bind (update_preset p false) (fun _ => bind (render_menu c) (fun _ => ret true)) a
  = let x := render_menu c (with_presets (update_presets p false (presets a)) a) in
    (match outcome x with Returned _ => Returned true | Raised e => Raised e end,
     state_of x, trace_of x).
Proof.
  unfold bind at 1. rewrite update_preset_eq. cbn [app]. unfold bind, ret.
  destruct (render_menu c _) as [[[u|e] a'] t]; cbn; [now rewrite app_nil_r|reflexivity].
Qed.

Lemma store_render_done_state p c a :
  state_of (bind (update_preset p false) (fun _ => bind (render_menu c) (fun _ => ret true)) a)
  = state_of (render_menu c (with_presets (update_presets p false (presets a)) a)).
Proof. now rewrite store_render_done. Qed.

Lemma store_render_done_outcome p c a :
  outcome (bind (update_preset p false) (fun _ => bind (render_menu c) (fun _ => ret true)) a)
  = match outcome (render_menu c a) with
    | Returned _ => Returned true
    | Raised e => Raised e
    end.
Proof.
  rewrite store_render_done. cbn zeta. unfold outcome at 1. cbn [fst].
  now rewrite (render_menu_outcome c _ a).
Qed.

Lemma create_preset_loop_retries c p0 retries rest a :
  forall nm0, exists nm,
    create_preset_loop c (renamed nm0 p0) (back_and_forth retries ++ rest) a
    = create_preset_loop c (renamed nm p0) rest a.
Proof.
  induction retries as [|[n q] retries IH]; intros nm0.
  - now exists nm0.
  - destruct (IH n) as (nm & Hnm). exists nm. exact Hnm.
Qed.

Lemma presets_after_store_render p c a :
  presets (state_of (render_menu c (with_presets (update_presets p false (presets a)) a)))
  = replaced_or_appended p (presets a).
Proof.
  destruct (render_menu_poll_state c (with_presets (update_presets p false (presets a)) a))
    as (_ & _ & ->).
  cbn [presets with_presets]. apply update_presets_store.
Qed.

(** X16. [create_preset] stores what was typed last: after any number
    of returns from the parameters dialog, pressing Create stores the
    preset with the new id, the name and the parameters entered, at the
    end of the list when the id is new; it returns when the rendering
    does. *)
Theorem create_preset_stores c new_id retries nm params a :
  let r := create_preset c new_id
             (back_and_forth retries ++ [answer true nm; answer true params]) a in
  let p := {| preset_id := new_id; name := nm; job_params := params |} in
  presets (state_of r) = replaced_or_appended p (presets a)
  /\ (~ In new_id (ids (presets a)) -> presets (state_of r) = presets a ++ [p])
  /\ (outcome (render_menu c a) = Returned tt -> outcome r = Returned true).
Proof.
  cbn zeta. unfold create_preset.
  set (p0 := {| preset_id := new_id; name := EmptyString; job_params := EmptyString |}).
  destruct (create_preset_loop_retries c p0 retries
              [answer true nm; answer true params] a EmptyString) as (nm' & Hl).
  change (renamed EmptyString p0) with p0 in Hl. rewrite Hl.
  cbn [create_preset_loop clicked answer negb text].
  change (reparametrized params (renamed nm (renamed nm' p0)))
    with {| preset_id := new_id; name := nm; job_params := params |}.
  rewrite store_render_done_state, store_render_done_outcome.
  rewrite presets_after_store_render. split; [reflexivity|]. split.
  - intros Hfresh. unfold replaced_or_appended.
    assert (He : existsb (same_id {| preset_id := new_id; name := nm; job_params := params |})
                   (presets a) = false).
    { destruct (existsb _ (presets a)) eqn:E; [|reflexivity].
      apply existsb_same_id in E. contradiction. }
    rewrite He. f_equal. rewrite <- (map_id (presets a)) at 2. apply map_ext_in.
    intros it Hin. destruct (same_id _ it) eqn:E; [|reflexivity].
    exfalso. apply Hfresh. apply same_id_spec in E. cbn in E. rewrite <- E.
    now apply in_map.
  - intros Ho. now rewrite Ho.
Qed.

(** X17. Cancelling the name dialog of [create_preset] stores nothing
    and calls nothing, whatever was typed in the dialogs before. *)
Theorem create_preset_cancelled c new_id retries t a :
  create_preset c new_id (back_and_forth retries ++ [answer false t]) a
  = (Returned true, a, []).
Proof.
  unfold create_preset.
  set (p0 := {| preset_id := new_id; name := EmptyString; job_params := EmptyString |}).
  destruct (create_preset_loop_retries c p0 retries [answer false t] a EmptyString)
    as (nm' & Hl).
  change (renamed EmptyString p0) with p0 in Hl. now rewrite Hl.
Qed.

Lemma removed_same_id p q l : preset_id p = preset_id q -> removed p l = removed q l.
Proof.
  intros H. unfold removed. apply filter_ext. intros it. unfold same_id. now rewrite H.
Qed.

Lemma create_preset_loop_others c new_id n :
  forall answers preset a,
    (List.length answers <= n)%nat ->
    preset_id preset = new_id ->
    removed preset (presets (state_of (create_preset_loop c preset answers a)))
    = removed preset (presets a).
Proof.
  induction n as [|n IH]; intros answers preset a Hlen Hid.
  - destruct answers; [reflexivity|cbn in Hlen; lia].
  - destruct answers as [|r1 [|r2 rest]]; [reflexivity| |].
    + cbn [create_preset_loop]. now destruct (clicked r1).
    + cbn [create_preset_loop]. destruct (clicked r1); [|reflexivity]. cbn [negb].
      destruct (clicked r2).
      * rewrite store_render_done_state, presets_after_store_render.
        set (p' := reparametrized (text r2) (renamed (text r1) preset)).
        rewrite (removed_same_id preset p' (replaced_or_appended p' (presets a)))
          by reflexivity.
        rewrite (removed_same_id preset p' (presets a)) by reflexivity.
        apply removed_store.
      * set (p' := renamed (text r1) preset).
        rewrite (removed_same_id preset p' (presets (state_of _))) by reflexivity.
        rewrite (removed_same_id preset p' (presets a)) by reflexivity.
        apply IH; [cbn in Hlen; lia|exact Hid].
Qed.

(** X18. Whatever the user answers, and however the rendering ends,
    [create_preset] leaves the presets of every other id as they are,
    in their order. *)
Theorem create_preset_keeps_others c new_id answers a :
  let p0 := {| preset_id := new_id; name := EmptyString; job_params := EmptyString |} in
  removed p0 (presets (state_of (create_preset c new_id answers a))) = removed p0 (presets a).
Proof.
  cbn zeta. unfold create_preset.
  apply create_preset_loop_others with (new_id := new_id) (n := List.length answers);
    [apply Nat.le_refl|reflexivity].
Qed.

End Create_preset.

(** ** Submitting and killing jobs *)

Section Job_handlers.
Context {DT : DateTime}.
Variable key_error_text : string -> string.
Variable auth_error_text : string.

Lemma remove_first_spec key l :
  match remove_first key l with
  | Some l' =>
      exists l1 m l2,
        l = l1 ++ m :: l2 /\ l' = l1 ++ l2 /\ has_title key m = true
  | None => find (has_title key) l = None
  end.
Proof.
  induction l as [|x l IH]; cbn; [reflexivity|].
  destruct (has_title key x) eqn:E.
  - now exists [], x, l.
  - destruct (remove_first key l) as [l'|]; [|exact IH].
    destruct IH as (l1 & m & l2 & -> & -> & Hm).
    now exists (x :: l1), m, l2.
Qed.

Lemma menu_remove_spec key l :
  match menu_remove key l with
  | Some l' =>
      exists l1 m l2,
        l = l1 ++ m :: l2 /\ l' = l1 ++ l2 /\ has_title key m = true
  | None => menu_get key l = None
  end.
Proof.
  unfold menu_remove, menu_get. pose proof (remove_first_spec key (rev l)) as H.
  destruct (remove_first key (rev l)) as [l'|]; [|exact H].
  destruct H as (r1 & m & r2 & Hl & -> & Hm).
  exists (rev r2), m, (rev r1). split; [|split; [apply rev_app_distr|exact Hm]].
  rewrite <- (rev_involutive l), Hl, rev_app_distr. cbn. now rewrite <- app_assoc.
Qed.

Lemma has_title_titles key m l : In m l -> has_title key m = true -> In key (titles l).
Proof.
  intros Hin Ht. unfold titles. apply in_flat_map. exists m. split; [exact Hin|].
  unfold has_title in Ht. destruct (item_title m) as [t|]; [|discriminate].
  apply String.eqb_eq in Ht. subst. now left.
Qed.

Lemma menu_get_titles key l : menu_get key l <> None -> In key (titles l).
Proof.
  unfold menu_get. destruct (find (has_title key) (rev l)) as [x|] eqn:E; [|congruence].
  intros _. apply find_some in E. destruct E as (Hin & Ht).
  apply in_rev in Hin. now apply has_title_titles with x.
Qed.

Lemma menu_get_hit key l m : In m l -> has_title key m = true -> menu_get key l <> None.
Proof.
  intros Hin Hm Hnone. unfold menu_get in Hnone.
  assert (Hf : has_title key m = false).
  { apply (find_none _ _ Hnone m). now apply -> in_rev. }
  congruence.
Qed.

Lemma titles_app l1 l2 : titles (l1 ++ l2) = titles l1 ++ titles l2.
Proof. unfold titles. apply flat_map_app. Qed.

Lemma title_gone key l1 m l2 :
  distinct_titles (l1 ++ m :: l2) -> has_title key m = true ->
  menu_get key (l1 ++ l2) = None.
Proof.
  unfold distinct_titles. intros Hnd Hm.
  destruct (menu_get key (l1 ++ l2)) as [x|] eqn:E; [|reflexivity]. exfalso.
  assert (Hin : In key (titles (l1 ++ l2))) by (apply menu_get_titles; congruence).
  rewrite titles_app in Hnd, Hin.
  change (m :: l2) with ([m] ++ l2) in Hnd. rewrite titles_app in Hnd.
  assert (Hk : titles [m] = [key]).
  { unfold titles, has_title in *. cbn. destruct (item_title m) as [t|]; [|discriminate].
    apply String.eqb_eq in Hm. now subst. }
  rewrite Hk in Hnd. cbn [app] in Hnd.
  apply NoDup_remove_2 in Hnd. now apply Hnd.
Qed.

Lemma submit_preset_eq t p preset a :
  submit_preset auth_error_text (answer true t) p preset a =
  match client_submit_raw p ("-d '" ++ t ++ "' " ++ job_params preset)%string with
  | Returned _ => (Returned tt, with_update_cycle_len 1 a, [])
  | Raised e =>
      (Returned tt, a,
       [Notification "Failed to create new job" EmptyString (str auth_error_text e)])
  end.
Proof.
  unfold submit_preset, try_except, bind, lift, set_active_mode, modify, notification, emit.
  cbn [clicked answer text].
  now destruct (client_submit_raw p _) as [[]|e].
Qed.

(** X19. [submit_preset], once confirmed, catches every exception
    derived from [Exception] that the platform raises, and returns.
    When the platform accepts the job (submitted with [-d '<text>' ] before the
    parameters of the preset) nothing is notified and the next tick
    polls; when the platform raises, there is one notification with
    the text of the error and the timer goes on as if nothing had
    been asked. *)
Theorem submit_preset_then_tick t p preset c a :
  0 <= iteration a ->
  let r := submit_preset auth_error_text (answer true t) p preset a in
  outcome r = Returned tt
  /\ match client_submit_raw p ("-d '" ++ t ++ "' " ++ job_params preset)%string with
     | Returned _ =>
         trace_of r = [] /\ polled (trace_of (update c (state_of r))) = true
     | Raised e =>
         trace_of r
         = [Notification "Failed to create new job" EmptyString (str auth_error_text e)]
         /\ update c (state_of r) = update c a
     end.
Proof.
  intros Hi. cbn zeta. rewrite submit_preset_eq.
  destruct (client_submit_raw p _) as [[]|e]; (split; [reflexivity|]); split;
    try reflexivity.
  change (state_of (Returned tt, with_update_cycle_len 1 a, []))
    with (with_update_cycle_len 1 a).
  destruct (poll_state_cases c (with_update_cycle_len 1 a)) as [(H & _)|(_ & _ & _ & Hp)];
    [cbn in H; lia|exact Hp].
Qed.

Lemma kill_job_eq t p job a :
  kill_job key_error_text auth_error_text (answer true t) p job a =
  match client_job_kill p (id job) with
  | Raised e =>
      (Returned tt, a,
       [Notification "Failed to kill the job" EmptyString (str auth_error_text e)])
  | Returned _ =>
      match menu_remove (id job) (menu a) with
      | Some l => (Returned tt, with_update_cycle_len 1 (with_menu l a), [])
      | None =>
          (Returned tt, a,
           [Notification "Failed to kill the job" EmptyString (key_error_text (id job))])
      end
  end.
Proof.
  unfold kill_job, del_menu, try_except, bind, lift, get, set_active_mode, modify,
    notification, emit.
  cbn [clicked answer].
  destruct (client_job_kill p (id job)) as [[]|e]; [|reflexivity].
  now destruct (menu_remove (id job) (menu a)).
Qed.

(** X20. On a menu that [render_menu] has just built with distinct
    titles, and for a job whose id is not one of the keys
    [separator_1], [separator_2], ... under which [rumps] keeps the
    separators: [kill_job], once confirmed, returns whatever exception
    derived from [Exception] the platform or the menu raises, and is
    silent exactly when the platform killed the job and the menu has
    an entry whose title is the id of the job; then that entry is
    taken out, the others stay in order, no entry of that title is
    left, and the backoff is reset.  In every other case there is one
    notification and the application is left as it was, also when the
    platform did kill the job. *)
Theorem kill_job_silent_iff_entry_by_id t p job c a0 :
  let a := state_of (render_menu c a0) in
  distinct_titles (menu a) ->
  String.prefix "separator_" (id job) = false ->
  let r := kill_job key_error_text auth_error_text (answer true t) p job a in
  outcome r = Returned tt
  /\ (trace_of r = [] <->
      (exists u, client_job_kill p (id job) = Returned u) /\ titled (id job) (menu a))
  /\ (trace_of r = [] ->
      update_cycle_len (state_of r) = 1
      /\ ~ titled (id job) (menu (state_of r))
      /\ exists l1 m l2,
           menu a = l1 ++ m :: l2 /\ menu (state_of r) = l1 ++ l2
           /\ item_title m = Some (id job))
  /\ (trace_of r <> [] ->
      state_of r = a /\ List.length (notifications (trace_of r)) = 1%nat).
Proof.
  intros a Hnd _. cbn zeta. rewrite kill_job_eq.
  pose proof (menu_remove_spec (id job) (menu a)) as Hrm.
  unfold titled.
  destruct (client_job_kill p (id job)) as [u|e].
  - destruct (menu_remove (id job) (menu a)) as [l|].
    + destruct Hrm as (l1 & m & l2 & Hm & -> & Ht).
      split; [reflexivity|]. split; [|split].
      * split; [|reflexivity]. intros _. split; [now exists u|].
        apply menu_get_hit with m; [|exact Ht].
        rewrite Hm. apply in_or_app. right. now left.
      * intros _. split; [reflexivity|]. split.
        -- cbn [state_of fst snd menu with_update_cycle_len with_menu].
           intros H. apply H. apply title_gone with m; [|exact Ht]. now rewrite <- Hm.
        -- exists l1, m, l2. repeat split; [exact Hm|].
           unfold has_title in Ht. destruct (item_title m) as [t'|]; [|discriminate].
           apply String.eqb_eq in Ht. now subst.
      * intros H. now contradiction H.
    + split; [reflexivity|]. split; [|split].
      * split; [discriminate|]. intros (_ & H). now contradiction H.
      * discriminate.
      * intros _. now split.
  - split; [reflexivity|]. split; [|split].
    + split; [discriminate|]. intros ((u & Hu) & _). discriminate.
    + discriminate.
    + intros _. now split.
Qed.

End Job_handlers.

(** ** The further properties at work on the examples *)


Lemma value_error_poll_witness :
  polled (trace_of (update malformed start)) = true
  /\ notifications (trace_of (update malformed start))
     = [Notification "Failed to get updates" EmptyString "unexpected response"].
Proof.
  split; [reflexivity|].
  apply (proj1 (@value_error_poll IsoDate malformed start "unexpected response"
                  eq_refl eq_refl)).
Defined.

Lemma other_error_poll_witness :
  polled (trace_of (update offline start)) = true
  /\ notifications (trace_of (update offline start)) = [].
Proof.
  split; [reflexivity|].
  apply (proj1 (@other_error_poll IsoDate offline start "connection refused"
                  eq_refl eq_refl)).
Defined.

Lemma successful_poll_witness :
  polled (trace_of (update two_updates start)) = true
  /\ notifications (trace_of (update two_updates start))
     = [Notification "Job status has changed" "a" "New status: running";
        Notification "New job is created" "b" "Status: pending (queued)"].
Proof.
  split; [reflexivity|].
  apply (proj2 (proj2 (@successful_poll IsoDate two_updates start [started; submitted]
                         eq_refl eq_refl))).
Defined.

Lemma no_job_named_quit_nil : no_job_named "Quit" [].
Proof. constructor. Defined.

Lemma no_job_named_quit_three : no_job_named "Quit" three_jobs.
Proof. repeat constructor; discriminate. Defined.

Lemma failed_render_loses_quit_witness :
  outcome (render_menu listing_fails start) = Raised AuthenticationError
  /\ menu_get "Quit" (menu start) = Some (Item "Quit" [])
  /\ menu_get "Quit"
       (menu (state_of (render_menu quiet (state_of (render_menu listing_fails start)))))
     = None.
Proof.
  split; [reflexivity|]. split; [reflexivity|].
  apply (proj2 (@failed_render_loses_quit IsoDate listing_fails start AuthenticationError
                  quiet [] eq_refl) eq_refl no_job_named_quit_nil).
Defined.

Lemma quit_survives_render_witness :
  outcome (render_menu busy start) = Returned tt
  /\ menu_get "Quit" (menu (state_of (render_menu busy start))) = menu_get "Quit" (menu start).
Proof.
  split; [reflexivity|].
  apply (@quit_survives_render IsoDate busy start three_jobs eq_refl
           no_job_named_quit_three eq_refl).
Defined.

Lemma render_menu_idempotent_witness :
  render_menu busy (state_of (render_menu busy start)) = render_menu busy start.
Proof.
  apply (@render_menu_idempotent IsoDate busy start three_jobs eq_refl
           no_job_named_quit_three eq_refl).
Defined.

Lemma store_then_remove_witness :
  ~ In (preset_id tpu_preset) (ids (presets with_presets_stored))
  /\ presets (state_of (update_preset tpu_preset true
                          (state_of (update_preset tpu_preset false with_presets_stored))))
     = presets with_presets_stored.
Proof.
  assert (H : ~ In (preset_id tpu_preset) (ids (presets with_presets_stored))).
  { cbn. intros [H|[H|[]]]; discriminate. }
  split; [exact H|].
  apply (proj2 (proj2 (@store_then_remove tpu_preset with_presets_stored)) H).
Defined.

Lemma update_preset_keeps_ids_distinct_witness :
  NoDup (ids (presets with_presets_stored))
  /\ ids (presets (state_of (update_preset (renamed "gpu x2" gpu_preset) false
                                with_presets_stored)))
     = ["p1"; "p2"].
Proof.
  assert (H : NoDup (ids (presets with_presets_stored))).
  { cbn. repeat constructor; cbn; intros H; repeat destruct H as [H|H]; discriminate || exact H. }
  split; [exact H|].
  apply (proj2 (@update_preset_keeps_ids_distinct (renamed "gpu x2" gpu_preset) false
                  with_presets_stored H) eq_refl).
  cbn. now left.
Defined.

Lemma edited_preset_is_stored_then_shown_witness :
  outcome (rename_preset (answer true "gpu x2") quiet gpu_preset with_presets_stored)
  = Returned tt
  /\ exists sub,
       In (Item "Presets" sub)
          (menu (state_of (rename_preset (answer true "gpu x2") quiet gpu_preset
                             with_presets_stored)))
       /\ In (render_preset_item (renamed "gpu x2" gpu_preset)) sub.
Proof.
  split; [reflexivity|].
  apply (proj2 (proj2 (proj1 (@edited_preset_is_stored_then_shown IsoDate "gpu x2" quiet
                                gpu_preset with_presets_stored)))).
  reflexivity.
Defined.

Lemma removed_preset_is_gone_witness :
  outcome (remove_preset (answer true EmptyString) quiet gpu_preset
             (init [Item "Quit" []] [gpu_preset]))
  = Returned tt
  /\ In (Item "Presets" [Item "No presets" []; separator; Item "Create preset..." []])
        (menu (state_of (remove_preset (answer true EmptyString) quiet gpu_preset
                           (init [Item "Quit" []] [gpu_preset])))).
Proof.
  split; [reflexivity|].
  apply (proj2 (proj2 (proj2 (@removed_preset_is_gone IsoDate EmptyString quiet gpu_preset
                                (init [Item "Quit" []] [gpu_preset]))) eq_refl)).
  reflexivity.
Defined.

Lemma create_preset_stores_witness :
  ~ In "p3" (ids (presets with_presets_stored))
  /\ presets (state_of (create_preset quiet "p3"
                          (back_and_forth [("tpu", "-t 8")]
                           ++ [answer true "tpu small"; answer true "-t 1"])
                          with_presets_stored))
     = [gpu_preset; cpu_preset;
        {| preset_id := "p3"; name := "tpu small"; job_params := "-t 1" |}].
Proof.
  assert (H : ~ In "p3" (ids (presets with_presets_stored))).
  { cbn. intros [H|[H|[]]]; discriminate. }
  split; [exact H|].
  apply (proj1 (proj2 (@create_preset_stores IsoDate quiet "p3" [("tpu", "-t 8")]
                         "tpu small" "-t 1" with_presets_stored)) H).
Defined.

Lemma submit_preset_then_tick_witness :
  0 <= iteration start
  /\ polled (trace_of (update quiet
                         (state_of (submit_preset "bad token" (answer true "run 1") accepting
                                      gpu_preset (run [Tick quiet; Tick quiet] start)))))
     = true.
Proof.
  split; [discriminate|].
  apply (proj2 (@submit_preset_then_tick IsoDate "bad token" "run 1" accepting gpu_preset
                  quiet (run [Tick quiet; Tick quiet] start) ltac:(discriminate))).
Defined.

Lemma listed_titles_distinct :
  distinct_titles (menu (state_of (render_menu lists_two start))).
Proof.
  unfold distinct_titles. vm_compute.
  repeat (constructor; [cbn; intros H; repeat destruct H as [H|H]; (discriminate || exact H)|]).
  constructor.
Qed.

(** A job listed under its description has no entry under its id:
    killing it is reported as a failure although the platform killed
    it; a job listed under its id goes from the menu silently. *)
Lemma kill_job_silent_iff_entry_by_id_witness :
  distinct_titles (menu (state_of (render_menu lists_two start)))
  /\ String.prefix "separator_" (id training) = false
  /\ (trace_of (kill_job quoted "bad token" (answer true EmptyString) accepting
                  (job_at "job-2" "2019-03-01") (state_of (render_menu lists_two start)))
      = []
      /\ update_cycle_len
           (state_of (kill_job quoted "bad token" (answer true EmptyString) accepting
                        (job_at "job-2" "2019-03-01")
                        (state_of (render_menu lists_two start))))
         = 1)
  /\ (trace_of (kill_job quoted "bad token" (answer true EmptyString) accepting training
                  (state_of (render_menu lists_two start)))
      = [Notification "Failed to kill the job" EmptyString "'job-1'"]
      /\ state_of (kill_job quoted "bad token" (answer true EmptyString) accepting training
                     (state_of (render_menu lists_two start)))
         = state_of (render_menu lists_two start)).
Proof.
  split; [exact listed_titles_distinct|]. split; [reflexivity|]. split.
  - split; [reflexivity|].
    apply (proj1 (proj2 (proj2 (@kill_job_silent_iff_entry_by_id IsoDate quoted "bad token"
                                  EmptyString accepting (job_at "job-2" "2019-03-01")
                                  lists_two start listed_titles_distinct eq_refl))));
      reflexivity.
  - split; [reflexivity|].
    apply (proj2 (proj2 (proj2 (@kill_job_silent_iff_entry_by_id IsoDate quoted "bad token"
                                  EmptyString accepting training
                                  lists_two start listed_titles_distinct eq_refl)))).
    discriminate.
Defined.

End Neurox.
